(** * @tsonic/core: the compile-time surface of the Tsonic front end

    A shallow embedding of the declaration files [types.d.ts], [lang.d.ts]
    (root and [versions/10]) and [versions/10/attributes.d.ts].

    The repository contains type declarations only.  What a declaration file
    computes is a type-level program: aliases are functions from types to
    types, conditional and mapped types are functions over the declared
    members of their argument, and a call signature decides which argument
    lists type-check.  Those are the functions embedded below.

    - A host (TypeScript) type is a value of [HostTy]; the generic parts are
      stated over an arbitrary type universe [ty] with the host's
      assignability test as a parameter.
    - A constructor type is the list of its construct signatures in
      declaration order; a construct signature is its parameter tuple.
    - A union of tuples is the list of its alternatives; [never] is [[]].
    - An object type is the list of its members, name and type.
    - A call that does not type-check yields [None] (a static error). *)

From Stdlib Require Import Ascii String List ZArith Bool Arith Lia Permutation.
Import ListNotations.
Local Open Scope string_scope.
Local Open Scope list_scope.
Local Set Warnings "-register-all".

(* ====================================================================== *)
(** * Host types *)
(* ====================================================================== *)

(** The outcome of a conditional type [t extends U ? X : Y] on a closed
    check type: one of the branches, or, when the check type is [any], the
    union of both. *)
Inductive Extends : Type :=
| ExtendsTrue
| ExtendsFalse
| ExtendsBoth.

Definition takes_true (e : Extends) : bool :=
  match e with
  | ExtendsTrue | ExtendsBoth => true
  | ExtendsFalse => false
  end.

Definition takes_false (e : Extends) : bool :=
  match e with
  | ExtendsFalse | ExtendsBoth => true
  | ExtendsTrue => false
  end.

(** The two declarations of [Span<T>]: that of [src/lang.d.ts] and that of
    [src/versions/10/lang.d.ts]. *)
Inductive SpanDecl : Type :=
| LangSpan
| Lang10Span.

(** The name each declaration gives its length member. *)
Definition span_length_name (d : SpanDecl) : string :=
  match d with
  | LangSpan => "length"
  | Lang10Span => "Length"
  end.

(** The fragment of the host type language the declaration files mention:
    the primitives aliased by [types.d.ts], [unknown], [any], [null],
    [T | null] (result of [trycast]), the [Span<T>] of either declaration
    file, nominal class or interface references, and method types.
    [TFunction n] is the type of a function taking [n] parameters of type
    [unknown]; parameter and result types of methods play no role in the
    declarations embedded here. *)
Inductive HostTy : Type :=
| TNumber
| TBoolean
| TString
| TUnknown
| TAny
| TNull
| TNullable (t : HostTy)
| TSpan (d : SpanDecl) (t : HostTy)
| TRef (name : string)
| TFunction (arity : nat).

(** Assignability of the host, on the fragment: everything is assignable to
    [unknown] and to [any], and [any] to everything; [null] and [t] are
    assignable to [t | null]; a function with fewer parameters is
    assignable to one with more; references are nominal; a [Span<T>] is
    assignable to a [Span<U>] when the length member of the target is a
    member of the source and [T] is assignable to [U]. *)
Fixpoint host_assignable (a b : HostTy) : bool :=
  match b with
  | TUnknown => true
  | TAny => true
  | TNullable b' =>
      match a with
      | TNull => true
      | TNullable a' => host_assignable a' b'
      | _ => host_assignable a b'
      end
  | TNumber => match a with TNumber | TAny => true | _ => false end
  | TBoolean => match a with TBoolean | TAny => true | _ => false end
  | TString => match a with TString | TAny => true | _ => false end
  | TNull => match a with TNull | TAny => true | _ => false end
  | TSpan d' b' =>
      match a with
      | TSpan d a' =>
          String.eqb (span_length_name d) (span_length_name d') &&
          host_assignable a' b'
      | TAny => true
      | _ => false
      end
  | TRef m => match a with TRef n => String.eqb n m | TAny => true | _ => false end
  | TFunction m =>
      match a with TFunction n => Nat.leb n m | TAny => true | _ => false end
  end.

(** [t extends (...args: any[]) => any ? ... : ...] on the fragment. *)
Definition host_callable (t : HostTy) : Extends :=
  match t with
  | TFunction _ => ExtendsTrue
  | TAny => ExtendsBoth
  | _ => ExtendsFalse
  end.

(** The types a type is the union of; a type that is not a union is its
    only constituent. *)
Fixpoint host_constituents (t : HostTy) : list HostTy :=
  match t with
  | TNullable t' => host_constituents t' ++ [TNull]
  | _ => [t]
  end.

(* ====================================================================== *)
(** * types.d.ts *)
(* ====================================================================== *)

Module Types.

(* Signed integer types *)
Definition sbyte : HostTy := TNumber.
Definition short : HostTy := TNumber.
Definition int : HostTy := TNumber.
Definition long : HostTy := TNumber.
Definition nint : HostTy := TNumber.
Definition int128 : HostTy := TNumber.

(* Unsigned integer types *)
Definition byte : HostTy := TNumber.
Definition ushort : HostTy := TNumber.
Definition uint : HostTy := TNumber.
Definition ulong : HostTy := TNumber.
Definition nuint : HostTy := TNumber.
Definition uint128 : HostTy := TNumber.

(* Floating-point types *)
Definition half : HostTy := TNumber.
Definition float : HostTy := TNumber.
Definition double : HostTy := TNumber.
Definition decimal : HostTy := TNumber.

(** The sixteen numeric aliases, in declaration order. *)
Definition numeric_aliases : list (string * HostTy) :=
  [ ("sbyte", sbyte); ("short", short); ("int", int); ("long", long);
    ("nint", nint); ("int128", int128);
    ("byte", byte); ("ushort", ushort); ("uint", uint); ("ulong", ulong);
    ("nuint", nuint); ("uint128", uint128);
    ("half", half); ("float", float); ("double", double);
    ("decimal", decimal) ].

(* Other primitive types *)
Definition char : HostTy := TString.
Definition bool : HostTy := TBoolean.

(* Pointer type: erases to unknown *)
Definition ptr (T : HostTy) : HostTy := TUnknown.

(* Parameter passing modifiers *)
Definition out (T : HostTy) : HostTy := T.
Definition ref (T : HostTy) : HostTy := T.
Definition inref (T : HostTy) : HostTy := T.

End Types.

(* ====================================================================== *)
(** * versions/10/attributes.d.ts: constructor overloads *)
(* ====================================================================== *)

Section Overloads.

Variable ty : Type.

(** The parameter tuple of one construct signature [new (...args: P): any].
    Attribute constructors take fixed positional parameter lists. *)
Definition Params : Type := list ty.

(** [AttributeCtor]: an attribute class constructor, given by the native
    name of the class and its construct signatures in declaration order. *)
Record AttributeCtor : Type := {
  attribute_name : string;
  signatures : list Params
}.

(** [C extends AttributeCtor]: the type has a construct signature. *)
Definition is_AttributeCtor (C : AttributeCtor) : bool :=
  negb (Nat.eqb (length (signatures C)) 0).

(** [C extends { new (...args: infer A1): any; ...; new (...args: infer Ak): any }].
    The host pairs the signatures of [C] with those of the pattern from the
    last one upwards; here a pattern of [k] signatures needs [k] signatures
    of [C] and binds [A1..Ak] to the last [k] of them. *)
Definition infer_signatures (k : nat) (sigs : list Params)
  : option (list Params) :=
  if Nat.leb k (length sigs)
  then Some (skipn (length sigs - k) sigs)
  else None.

(** The same test as newer hosts run it: when [C] has fewer signatures
    than the pattern, the excess pattern signatures infer from the first
    signature of [C], so the pattern matches every constructor type. *)
Definition infer_signatures_padded (k : nat) (sigs : list Params)
  : option (list Params) :=
  match sigs with
  | [] => None
  | first :: _ =>
      Some (repeat first (k - length sigs) ++ skipn (length sigs - k) sigs)
  end.

(** The conditional chain of [OverloadedConstructorParameters], over the
    way the host answers one [extends ... infer] test. *)
Definition overload_chain
    (infer : nat -> list Params -> option (list Params))
    (C : AttributeCtor) : list Params :=
  match infer 5 (signatures C) with
  | Some [A1; A2; A3; A4; A5] => [A1; A2; A3; A4; A5]
  | _ =>
    match infer 4 (signatures C) with
    | Some [A1; A2; A3; A4] => [A1; A2; A3; A4]
    | _ =>
      match infer 3 (signatures C) with
      | Some [A1; A2; A3] => [A1; A2; A3]
      | _ =>
        match infer 2 (signatures C) with
        | Some [A1; A2] => [A1; A2]
        | _ =>
          match infer 1 (signatures C) with
          | Some [A] => [A]
          | _ => []
          end
        end
      end
    end
  end.

(** [OverloadedConstructorParameters<C>]: a union of parameter tuples. *)
Definition OverloadedConstructorParameters (C : AttributeCtor)
  : list Params :=
  overload_chain infer_signatures C.

Definition OverloadedConstructorParameters_padded (C : AttributeCtor)
  : list Params :=
  overload_chain infer_signatures_padded C.

Variable assignable : ty -> ty -> bool.

(** An argument list against one parameter tuple: same length, and each
    argument assignable to the parameter at its position. *)
Fixpoint args_assignable (A : list ty) (P : Params) : bool :=
  match A, P with
  | [], [] => true
  | a :: A', p :: P' => assignable a p && args_assignable A' P'
  | _, _ => false
  end.

(** An argument list against a rest parameter typed by a union of
    tuples: it has to be assignable to one alternative. *)
Definition rest_accepts (U : list Params) (A : list ty) : bool :=
  existsb (args_assignable A) U.

(** The check of [...args: OverloadedConstructorParameters<C>], shared by
    [add] and [attr]. *)
Definition overload_args_ok (C : AttributeCtor) (A : list ty) : bool :=
  rest_accepts (OverloadedConstructorParameters C) A.

(** The acceptance condition in the words of the specification:
    [length(Si) == length(A)] and [A[k]] assignable to [Si[k]] at every
    position [k]. *)
Definition matches_signature (A : list ty) (Si : Params) : Prop :=
  length Si = length A /\
  forall k a s, nth_error A k = Some a -> nth_error Si k = Some s ->
                assignable a s = true.

Definition some_signature_matches (C : AttributeCtor) (A : list ty) : Prop :=
  exists Si, In Si (signatures C) /\ matches_signature A Si.

End Overloads.

Arguments attribute_name {ty} _.
Arguments signatures {ty} _.
Arguments is_AttributeCtor {ty} C.
Arguments infer_signatures {ty} k sigs.
Arguments infer_signatures_padded {ty} k sigs.
Arguments overload_chain {ty} infer C.
Arguments OverloadedConstructorParameters {ty} C.
Arguments OverloadedConstructorParameters_padded {ty} C.
Arguments args_assignable {ty} assignable A P.
Arguments rest_accepts {ty} assignable U A.
Arguments overload_args_ok {ty} assignable C A.
Arguments matches_signature {ty} assignable A Si.
Arguments some_signature_matches {ty} assignable C A.

(* ====================================================================== *)
(** * versions/10/attributes.d.ts: member selection *)
(* ====================================================================== *)

Section Members.

Variable ty : Type.

(** An object type [T]: its members, name and type, in declaration order. *)
Definition ObjectType : Type := list (string * ty).

(** [T[k]] for one key. *)
Fixpoint member_type (T : ObjectType) (k : string) : option ty :=
  match T with
  | [] => None
  | (name, t) :: T' => if String.eqb name k then Some t else member_type T' k
  end.

(** [T[K]] for a union of keys [K]: the union of the member types. *)
Definition indexed_access (T : ObjectType) (K : list string) : list ty :=
  flat_map (fun k => match member_type T k with
                     | Some t => [t]
                     | None => []
                     end) K.

(** [keyof T]. *)
Definition keyof (T : ObjectType) : list string := map fst T.

(** [callable t] is the outcome of [t extends (...args: any[]) => any]:
    the true branch for a type assignable to a function type, the false
    branch otherwise, and both branches for [any]. *)
Variable callable : ty -> Extends.

(** [T[K] extends (...args: any[]) => any ? K : never] yields [K]. *)
Definition member_callable (T : ObjectType) (k : string) : bool :=
  match member_type T k with
  | Some t => takes_true (callable t)
  | None => false
  end.

(** [T[K] extends (...args: any[]) => any ? never : K] yields [K]. *)
Definition member_not_callable (T : ObjectType) (k : string) : bool :=
  match member_type T k with
  | Some t => takes_false (callable t)
  | None => false
  end.

(** [MethodKeys<T>]: keys of [T] whose values are callable.  The mapped
    type sends each key [K in keyof T] to [K] or to [never]; indexing it by
    [keyof T] leaves the union of the keys that were kept.  The key of a
    member typed [any] is kept. *)
Definition MethodKeys (T : ObjectType) : list string :=
  filter (fun k => member_callable T k) (keyof T).

(** [PropertyKeys<T>]: keys of [T] whose values are not callable.  The key
    of a member typed [any] is kept here too. *)
Definition PropertyKeys (T : ObjectType) : list string :=
  filter (fun k => member_not_callable T k) (keyof T).

(** A selector [(t: T) => ...]: a direct member access [t => t.k], or any
    other function body, known by its result type. *)
Inductive Selector : Type :=
| SelectMember (k : string)
| SelectOther (result : ty).

(** The result type of a selector applied to a [T]; accessing a member
    [T] does not declare is a static error. *)
Definition selector_type (T : ObjectType) (s : Selector) : option ty :=
  match s with
  | SelectMember k => member_type T k
  | SelectOther r => Some r
  end.

Definition key_in (k : string) (K : list string) : bool :=
  existsb (String.eqb k) K.

(** The host's assignability of one type to another, and the types a type
    is the union of (a type that is not a union is its only
    constituent). *)
Variable assignable : ty -> ty -> bool.
Variable constituents : ty -> list ty.

(** A type against the union of the types [U]: each of its constituents
    has to be assignable to one of them. *)
Definition assignable_to_union (r : ty) (U : list ty) : bool :=
  forallb (fun c => existsb (assignable c) U) (constituents r).

(** A call [f<K>(selector)] against [f<K extends Bound>(selector: (t: T) => T[K])]:
    the type argument satisfies its constraint and the selector's result
    is assignable to [T[K]], the union of the types of the members that
    [K] names. *)
Definition selector_call_ok (T : ObjectType) (Bound K : list string)
    (s : Selector) : bool :=
  forallb (fun k => key_in k Bound) K &&
  match selector_type T s with
  | Some r => assignable_to_union r (indexed_access T K)
  | None => false
  end.

(** [method<K extends MethodKeys<T>>(selector: (t: T) => T[K])] with [K]
    written out by the caller. *)
Definition method_with (T : ObjectType) (K : list string) (s : Selector)
  : bool :=
  selector_call_ok T (MethodKeys T) K s.

(** [prop<K extends PropertyKeys<T>>(selector: (t: T) => T[K])] with [K]
    written out by the caller. *)
Definition prop_with (T : ObjectType) (K : list string) (s : Selector)
  : bool :=
  selector_call_ok T (PropertyKeys T) K s.

(** The calls as the examples write them, without a type argument: no
    inference is made for [K] from a result type [T[K]], and [K] is taken
    to be its constraint. *)
Definition method_ok (T : ObjectType) (s : Selector) : bool :=
  method_with T (MethodKeys T) s.

Definition prop_ok (T : ObjectType) (s : Selector) : bool :=
  prop_with T (PropertyKeys T) s.

End Members.

Arguments member_type {ty} T k.
Arguments indexed_access {ty} T K.
Arguments keyof {ty} T.
Arguments member_callable {ty} callable T k.
Arguments member_not_callable {ty} callable T k.
Arguments MethodKeys {ty} callable T.
Arguments PropertyKeys {ty} callable T.
Arguments SelectMember {ty} k.
Arguments SelectOther {ty} result.
Arguments selector_type {ty} T s.
Arguments assignable_to_union {ty} assignable constituents r U.
Arguments selector_call_ok {ty} assignable constituents T Bound K s.
Arguments method_with {ty} callable assignable constituents T K s.
Arguments prop_with {ty} callable assignable constituents T K s.
Arguments method_ok {ty} callable assignable constituents T s.
Arguments prop_ok {ty} callable assignable constituents T s.

(* ====================================================================== *)
(** * versions/10/attributes.d.ts: descriptors, builders and the API *)
(* ====================================================================== *)

Section Api.

Variable ty : Type.
Variable assignable : ty -> ty -> bool.
Variable callable : ty -> Extends.
Variable constituents : ty -> list ty.

(** Argument expressions of a call site and their static types. *)
Variable arg : Type.
Variable type_of : arg -> ty.

(** [AttributeDescriptor<C>]: attribute application, constructor and
    constructor arguments. *)
Record AttributeDescriptor : Type := {
  kind : string;
  ctor : AttributeCtor ty;
  args : list arg
}.

(** A value inhabits the interface [AttributeDescriptor<C>] when [kind] is
    the literal ["attribute"] and [args] is typed by
    [OverloadedConstructorParameters<C>]. *)
Definition descriptor_ok (d : AttributeDescriptor) : bool :=
  String.eqb (kind d) "attribute" &&
  overload_args_ok assignable (ctor d) (map type_of (args d)).

(** [Ctor<T>]: a class constructor, by the name of the class and its
    instance type. *)
Record Ctor : Type := {
  class_name : string;
  instance_type : ObjectType ty
}.

(** [InstanceOf<C>]. *)
Definition InstanceOf (C : Ctor) : ObjectType ty := instance_type C.

(** Where attributes attach. *)
Inductive Target : Type :=
| TypeTarget
| CtorTarget
| MethodTarget (s : Selector ty)
| PropertyTarget (s : Selector ty).

(** [AttributeTargetBuilder]: the handle [add] is called on. *)
Record AttributeTargetBuilder : Type := {
  target_class : string;
  target : Target
}.

(** [OnBuilder<T>], returned from [A.on(Foo)]. *)
Record OnBuilder : Type := {
  on_class : string;
  on_instance : ObjectType ty
}.

(** [AttributesApi.on]. *)
Definition on (C : Ctor) : OnBuilder :=
  {| on_class := class_name C; on_instance := InstanceOf C |}.

(** [OnBuilder.type] and [OnBuilder.ctor]. *)
Definition OnBuilder_type (b : OnBuilder) : AttributeTargetBuilder :=
  {| target_class := on_class b; target := TypeTarget |}.

Definition OnBuilder_ctor (b : OnBuilder) : AttributeTargetBuilder :=
  {| target_class := on_class b; target := CtorTarget |}.

(** [OnBuilder.method] and [OnBuilder.prop]: [None] when the call does
    not type-check. *)
Definition OnBuilder_method (b : OnBuilder) (s : Selector ty)
  : option AttributeTargetBuilder :=
  if method_ok callable assignable constituents (on_instance b) s
  then Some {| target_class := on_class b; target := MethodTarget s |}
  else None.

Definition OnBuilder_prop (b : OnBuilder) (s : Selector ty)
  : option AttributeTargetBuilder :=
  if prop_ok callable assignable constituents (on_instance b) s
  then Some {| target_class := on_class b; target := PropertyTarget s |}
  else None.

(** [AttributesApi.attr]: the descriptor of a type-checked call, [None]
    when the arguments are not accepted. *)
Definition attr (C : AttributeCtor ty) (A : list arg)
  : option AttributeDescriptor :=
  if overload_args_ok assignable C (map type_of A)
  then Some {| kind := "attribute"; ctor := C; args := A |}
  else None.

(** Modelled from the spec: the effect of [add], which the declaration
    file leaves to the compiler.  A target builder's "sole effect is to
    enqueue Attribute Descriptors against its bound Program Entity", and
    "attachment order is preserved".  The state of a declaration pass is
    the queue of attachments made so far. *)
Definition Attachments : Type :=
  list (AttributeTargetBuilder * AttributeDescriptor).

(** Declaration-pass programs: state passing with static errors. *)
Definition Pass (A : Type) : Type := Attachments -> option (A * Attachments).

Definition ret {A : Type} (a : A) : Pass A := fun st => Some (a, st).

Definition bind {A B : Type} (m : Pass A) (f : A -> Pass B) : Pass B :=
  fun st => match m st with
            | Some (a, st') => f a st'
            | None => None
            end.

(** A call that only has to type-check. *)
Definition checked {A : Type} (r : option A) : Pass A :=
  fun st => match r with
            | Some a => Some (a, st)
            | None => None
            end.

Definition enqueue (b : AttributeTargetBuilder) (d : AttributeDescriptor)
  : Pass unit :=
  fun st => Some (tt, st ++ [(b, d)]).

(** [add(ctor, ...args)]. *)
Definition add (b : AttributeTargetBuilder) (C : AttributeCtor ty)
    (A : list arg) : Pass unit :=
  bind (checked (attr C A)) (enqueue b).

(** [add(descriptor)]. *)
Definition add_descriptor (b : AttributeTargetBuilder)
    (d : AttributeDescriptor) : Pass unit :=
  if descriptor_ok d then enqueue b d else fun _ => None.

(** Modelled from the spec: lowering of a descriptor, which belongs to the
    compiler.  The attachment is "lowered into a native declarative
    metadata tag ... with the attribute identity's native name and the
    validated argument list rendered as that tag's literal arguments". *)
Record NativeAnnotation : Type := {
  annotation_name : string;
  annotation_args : list arg
}.

Definition lower_descriptor (d : AttributeDescriptor) : NativeAnnotation :=
  {| annotation_name := attribute_name (ctor d);
     annotation_args := args d |}.

Definition lower_attachments (st : Attachments)
  : list (AttributeTargetBuilder * NativeAnnotation) :=
  map (fun bd => (fst bd, lower_descriptor (snd bd))) st.

End Api.

Arguments kind {ty arg} _.
Arguments ctor {ty arg} _.
Arguments args {ty arg} _.
Arguments Build_AttributeDescriptor {ty arg} _ _ _.
Arguments descriptor_ok {ty} assignable {arg} type_of d.
Arguments class_name {ty} _.
Arguments instance_type {ty} _.
Arguments Build_Ctor {ty} _ _.
Arguments InstanceOf {ty} C.
Arguments TypeTarget {ty}.
Arguments CtorTarget {ty}.
Arguments MethodTarget {ty} s.
Arguments PropertyTarget {ty} s.
Arguments target_class {ty} _.
Arguments target {ty} _.
Arguments Build_AttributeTargetBuilder {ty} _ _.
Arguments on_class {ty} _.
Arguments on_instance {ty} _.
Arguments on {ty} C.
Arguments OnBuilder_type {ty} b.
Arguments OnBuilder_ctor {ty} b.
Arguments OnBuilder_method {ty} assignable callable constituents b s.
Arguments OnBuilder_prop {ty} assignable callable constituents b s.
Arguments attr {ty} assignable {arg} type_of C A.
Arguments ret {ty arg A} a.
Arguments bind {ty arg A B} m f.
Arguments checked {ty arg A} r.
Arguments enqueue {ty arg} b d.
Arguments add {ty} assignable {arg} type_of b C A.
Arguments add_descriptor {ty} assignable {arg} type_of b d.
Arguments annotation_name {arg} _.
Arguments annotation_args {arg} _.
Arguments lower_descriptor {ty arg} d.
Arguments lower_attachments {ty arg} st.

(** Literal arguments of the examples and their host types. *)
Inductive Literal : Type :=
| LString (s : string)
| LNumber (z : Z)
| LBoolean (b : bool).

Definition literal_type (l : Literal) : HostTy :=
  match l with
  | LString _ => TString
  | LNumber _ => TNumber
  | LBoolean _ => TBoolean
  end.

(* ====================================================================== *)
(** * lang.d.ts and versions/10/lang.d.ts *)
(* ====================================================================== *)

(** A type written in a generic signature [f<T>(...)]: the parameter [T]
    itself, a closed type, [e | null], or [Span<e>], which names the
    [Span] interface of the declaring file. *)
Inductive TyExpr : Type :=
| TyParam
| TyConst (t : HostTy)
| TyOrNull (e : TyExpr)
| TySpanOf (d : SpanDecl) (e : TyExpr).

Fixpoint instantiate (e : TyExpr) (T : HostTy) : HostTy :=
  match e with
  | TyParam => T
  | TyConst t => t
  | TyOrNull e' => TNullable (instantiate e' T)
  | TySpanOf d e' => TSpan d (instantiate e' T)
  end.

(** [declare function f<T>(params): result]. *)
Record FunctionDecl : Type := {
  fn_params : list TyExpr;
  fn_result : TyExpr
}.

(** The static type of a call [f<T>(args)]: the arguments have to be
    assignable to the instantiated parameters; the call then has the
    instantiated result type. *)
Definition call_type (f : FunctionDecl) (T : HostTy) (A : list HostTy)
  : option HostTy :=
  if args_assignable host_assignable A
       (map (fun e => instantiate e T) (fn_params f))
  then Some (instantiate (fn_result f) T)
  else None.

(** One property of an interface, and an interface with a numeric index
    signature. *)
Record PropertySignature : Type := {
  property_name : string;
  property_readonly : bool;
  property_type : HostTy
}.

Record InterfaceDecl : Type := {
  properties : list PropertySignature;
  index_signature : option (HostTy * HostTy)
}.

(** Structural assignability of interfaces: every property of the target
    is a property of the source, under the same name, with an assignable
    type ([readonly] does not take part), and an index signature of the
    target is matched by one of the source. *)
Definition has_property (I : InterfaceDecl) (p : PropertySignature) : bool :=
  existsb (fun q => String.eqb (property_name q) (property_name p) &&
                    host_assignable (property_type q) (property_type p))
          (properties I).

Definition interface_assignable (src tgt : InterfaceDecl) : bool :=
  forallb (has_property src) (properties tgt) &&
  match index_signature tgt, index_signature src with
  | None, _ => true
  | Some (_, t), Some (_, s) => host_assignable s t
  | Some _, None => false
  end.

(** Renaming of the properties of an interface. *)
Definition rename_properties (f : string -> string) (I : InterfaceDecl)
  : InterfaceDecl :=
  {| properties :=
       map (fun p => {| property_name := f (property_name p);
                        property_readonly := property_readonly p;
                        property_type := property_type p |}) (properties I);
     index_signature := index_signature I |}.

(** src/lang.d.ts *)
Module Lang.

Definition stackalloc : FunctionDecl :=
  {| fn_params := [TyConst Types.int]; fn_result := TySpanOf LangSpan TyParam |}.

Definition sizeof : FunctionDecl :=
  {| fn_params := []; fn_result := TyConst Types.int |}.

Definition defaultof : FunctionDecl :=
  {| fn_params := []; fn_result := TyParam |}.

Definition nameof : FunctionDecl :=
  {| fn_params := [TyConst TUnknown]; fn_result := TyConst TString |}.

Definition trycast : FunctionDecl :=
  {| fn_params := [TyConst TUnknown]; fn_result := TyOrNull TyParam |}.

Definition Span (T : HostTy) : InterfaceDecl :=
  {| properties :=
       [ {| property_name := "length";
            property_readonly := true;
            property_type := Types.int |} ];
     index_signature := Some (TNumber, T) |}.

End Lang.

(** src/versions/10/lang.d.ts *)
Module Lang10.

Definition stackalloc : FunctionDecl :=
  {| fn_params := [TyConst Types.int]; fn_result := TySpanOf Lang10Span TyParam |}.

Definition sizeof : FunctionDecl :=
  {| fn_params := []; fn_result := TyConst Types.int |}.

Definition defaultof : FunctionDecl :=
  {| fn_params := []; fn_result := TyParam |}.

Definition nameof : FunctionDecl :=
  {| fn_params := [TyConst TUnknown]; fn_result := TyConst TString |}.

Definition trycast : FunctionDecl :=
  {| fn_params := [TyConst TUnknown]; fn_result := TyOrNull TyParam |}.

Definition asinterface : FunctionDecl :=
  {| fn_params := [TyConst TUnknown]; fn_result := TyParam |}.

(** [istype<T>(value: unknown): value is T]; a type predicate is a
    [boolean] to its caller. *)
Definition istype : FunctionDecl :=
  {| fn_params := [TyConst TUnknown]; fn_result := TyConst TBoolean |}.

Definition thisarg (T : HostTy) : HostTy := T.

Definition Span (T : HostTy) : InterfaceDecl :=
  {| properties :=
       [ {| property_name := "Length";
            property_readonly := true;
            property_type := Types.int |} ];
     index_signature := Some (TNumber, T) |}.

End Lang10.

(** The interface a [Span] type refers to. *)
Definition Span_of (d : SpanDecl) (T : HostTy) : InterfaceDecl :=
  match d with
  | LangSpan => Lang.Span T
  | Lang10Span => Lang10.Span T
  end.

(* ====================================================================== *)
(** * The intrinsics at their callers: typing and lowering *)
(* ====================================================================== *)

(** The CLR types the aliases of [types.d.ts] stand for (the comment on
    each alias names it), with structs, classes and interfaces. *)
Inductive NumericKind : Type :=
| SByte | Int16 | Int32 | Int64 | IntPtr | Int128
| Byte | UInt16 | UInt32 | UInt64 | UIntPtr | UInt128
| Half | Single | Double | Decimal.

Inductive ClrTy : Type :=
| CNumeric (k : NumericKind)
| CBoolean
| CChar
| CStruct (name : string) (fields : list ClrTy)
| CString
| CClass (name : string)
| CInterface (name : string).

(** The host type a CLR type is written as in a Tsonic source file. *)
Definition host_of (T : ClrTy) : HostTy :=
  match T with
  | CNumeric _ => TNumber
  | CBoolean => Types.bool
  | CChar => Types.char
  | CStruct name _ => TRef name
  | CString => TString
  | CClass name => TRef name
  | CInterface name => TRef name
  end.

(** Value types and reference types of the CLR. *)
Definition is_value_type (T : ClrTy) : bool :=
  match T with
  | CNumeric _ | CBoolean | CChar | CStruct _ _ => true
  | CString | CClass _ | CInterface _ => false
  end.

Definition is_reference_type (T : ClrTy) : bool := negb (is_value_type T).

(** Unmanaged types: "primitives, structs with no reference fields". *)
Fixpoint is_unmanaged (T : ClrTy) : bool :=
  match T with
  | CNumeric _ | CBoolean | CChar => true
  | CStruct _ fields => forallb is_unmanaged fields
  | CString | CClass _ | CInterface _ => false
  end.

(** Expressions of a Tsonic source file, as far as the intrinsics go. *)
Inductive Expr : Type :=
| EVar (x : string)
| ENumber (z : Z)
| EString (s : string)
| EMember (e : Expr) (m : string)
| EAssert (e : Expr) (T : ClrTy)              (* e as T *)
| EStackalloc (T : ClrTy) (size : Expr)       (* stackalloc<T>(size) *)
| ESizeof (T : ClrTy)                         (* sizeof<T>() *)
| EDefaultof (T : ClrTy)                      (* defaultof<T>() *)
| ENameof (e : Expr)                          (* nameof(e) *)
| ETrycast (T : ClrTy) (e : Expr)             (* trycast<T>(e) *)
| EAsinterface (T : ClrTy) (e : Expr).        (* asinterface<T>(e) *)

(** Static typing by the host, from the declared signatures of
    [versions/10/lang.d.ts].  [vars] types the variables in scope and
    [members] gives the instance type of a class by name. *)
Section Typing.

Variable vars : string -> option HostTy.
Variable members : string -> ObjectType HostTy.

Fixpoint static_type (e : Expr) : option HostTy :=
  match e with
  | EVar x => vars x
  | ENumber _ => Some TNumber
  | EString _ => Some TString
  | EMember e' m =>
      match static_type e' with
      | Some (TRef c) => member_type (members c) m
      | _ => None
      end
  | EAssert e' T =>
      match static_type e' with
      | Some _ => Some (host_of T)
      | None => None
      end
  | EStackalloc T size =>
      match static_type size with
      | Some s => call_type Lang10.stackalloc (host_of T) [s]
      | None => None
      end
  | ESizeof T => call_type Lang10.sizeof (host_of T) []
  | EDefaultof T => call_type Lang10.defaultof (host_of T) []
  | ENameof e' =>
      match static_type e' with
      | Some s => call_type Lang10.nameof TUnknown [s]
      | None => None
      end
  | ETrycast T e' =>
      match static_type e' with
      | Some s => call_type Lang10.trycast (host_of T) [s]
      | None => None
      end
  | EAsinterface T e' =>
      match static_type e' with
      | Some s => call_type Lang10.asinterface (host_of T) [s]
      | None => None
      end
  end.

End Typing.

(** Expressions of the emitted C#. *)
Inductive CsExpr : Type :=
| CsVar (x : string)
| CsNumber (z : Z)
| CsString (s : string)
| CsMember (e : CsExpr) (m : string)
| CsCast (T : ClrTy) (e : CsExpr)             (* (T)e *)
| CsAs (e : CsExpr) (T : ClrTy)               (* e as T *)
| CsStackalloc (T : ClrTy) (size : CsExpr)    (* stackalloc T[size] *)
| CsSizeof (T : ClrTy)                        (* sizeof(T) *)
| CsDefault (T : ClrTy)                       (* default(T) *)
| CsNameof (e : CsExpr).                      (* nameof(e) *)

(** Runtime casts in an emitted expression. *)
Fixpoint runtime_casts (e : CsExpr) : nat :=
  match e with
  | CsVar _ | CsNumber _ | CsString _ | CsSizeof _ | CsDefault _ => 0
  | CsMember e' _ | CsStackalloc _ e' | CsNameof e' => runtime_casts e'
  | CsCast _ e' | CsAs e' _ => S (runtime_casts e')
  end.

Inductive LowerError : Type :=
| UnlowerableIntrinsic (intrinsic : string).

(** A variable or a member-access path. *)
Fixpoint is_path (e : Expr) : bool :=
  match e with
  | EVar _ => true
  | EMember e' _ => is_path e'
  | _ => false
  end.

Definition lower_bind (r : LowerError + CsExpr) (k : CsExpr -> LowerError + CsExpr)
  : LowerError + CsExpr :=
  match r with
  | inl err => inl err
  | inr e => k e
  end.

(** Modelled from the spec: the lowering of intrinsic calls, which the
    compiler performs and the declaration files only document.  Each case
    follows the row of the intrinsic in the table of section 4.1 and the
    "In C#, this emits" comment of its declaration: [stackalloc T[n]],
    [sizeof(T)] for fixed-layout [T] only, [default(T)], [nameof(e)] for
    paths only, [e as T], and for the interface view "no runtime cast is
    emitted; the expression is passed through unchanged". *)
Fixpoint lower (e : Expr) : LowerError + CsExpr :=
  match e with
  | EVar x => inr (CsVar x)
  | ENumber z => inr (CsNumber z)
  | EString s => inr (CsString s)
  | EMember e' m => lower_bind (lower e') (fun c => inr (CsMember c m))
  | EAssert e' T => lower_bind (lower e') (fun c => inr (CsCast T c))
  | EStackalloc T size =>
      lower_bind (lower size) (fun c => inr (CsStackalloc T c))
  | ESizeof T =>
      if is_unmanaged T then inr (CsSizeof T)
      else inl (UnlowerableIntrinsic "sizeof")
  | EDefaultof T => inr (CsDefault T)
  | ENameof e' =>
      if is_path e' then lower_bind (lower e') (fun c => inr (CsNameof c))
      else inl (UnlowerableIntrinsic "nameof")
  | ETrycast T e' => lower_bind (lower e') (fun c => inr (CsAs c T))
  | EAsinterface T e' => lower e'
  end.

(** Runtime casts in the outcome of a lowering. *)
Definition emitted_casts (r : LowerError + CsExpr) : nat :=
  match r with
  | inr c => runtime_casts c
  | inl _ => 0
  end.

(** Values of the CLR. *)
Inductive ClrValue : Type :=
| VNumber (z : Z)
| VBoolean (b : bool)
| VChar (code : N)
| VStruct (fields : list ClrValue)
| VNull
| VObject (class : string).

Fixpoint value_has_type (v : ClrValue) (T : ClrTy) {struct v} : bool :=
  match v, T with
  | VNumber _, CNumeric _ => true
  | VBoolean _, CBoolean => true
  | VChar _, CChar => true
  | VStruct vs, CStruct _ fs =>
      (fix fields_have_types (vs : list ClrValue) (fs : list ClrTy) : bool :=
         match vs, fs with
         | [], [] => true
         | v' :: vs', f :: fs' =>
             value_has_type v' f && fields_have_types vs' fs'
         | _, _ => false
         end) vs fs
  | VNull, (CString | CClass _ | CInterface _) => true
  | VObject c, CClass c' => String.eqb c c'
  | _, _ => false
  end.

(** The zero values: [0], [false], the character of code [0], the null
    reference, and a struct whose fields are all zero. *)
Fixpoint is_zero (v : ClrValue) : bool :=
  match v with
  | VNumber z => Z.eqb z 0
  | VBoolean b => negb b
  | VChar code => N.eqb code 0
  | VStruct vs => forallb is_zero vs
  | VNull => true
  | VObject _ => false
  end.

(** Modelled from the spec: the value of [defaultof<T>()], that is of the
    C# expression [default(T)] it lowers to, which the target platform
    computes.  "For value types, returns the zero value.  For reference
    types, returns null." *)
Fixpoint defaultof (T : ClrTy) : ClrValue :=
  match T with
  | CNumeric _ => VNumber 0
  | CBoolean => VBoolean false
  | CChar => VChar 0
  | CStruct _ fields => VStruct (map defaultof fields)
  | CString | CClass _ | CInterface _ => VNull
  end.


(* ====================================================================== *)
(** * Declarations used as examples *)
(* ====================================================================== *)

(** An attribute with the signatures [()] and [(string)]. *)
Definition ObsoleteAttribute : AttributeCtor HostTy :=
  {| attribute_name := "System.ObsoleteAttribute";
     signatures := [ []; [TString] ] |}.

(** An attribute with the single signature [()]. *)
Definition TransactionAttribute : AttributeCtor HostTy :=
  {| attribute_name := "TransactionAttribute";
     signatures := [ [] ] |}.

(** A three-parameter signature declared before a one-parameter one. *)
Definition RangeAttribute : AttributeCtor HostTy :=
  {| attribute_name := "RangeAttribute";
     signatures := [ [TNumber; TNumber; TString]; [TString] ] |}.

(** Six construct signatures. *)
Definition SixAttribute : AttributeCtor HostTy :=
  {| attribute_name := "SixAttribute";
     signatures :=
       [ [TString];
         [];
         [TNumber];
         [TNumber; TNumber];
         [TNumber; TNumber; TNumber];
         [TNumber; TNumber; TNumber; TNumber] ] |}.

(** [class User { name: string; save(): void }]. *)
Definition User : Ctor HostTy :=
  {| class_name := "User";
     instance_type := [ ("name", TString); ("save", TFunction 0) ] |}.

(** [class Document { title: string; payload: unknown; save(): void }]. *)
Definition Document : Ctor HostTy :=
  {| class_name := "Document";
     instance_type :=
       [ ("title", TString); ("payload", TUnknown); ("save", TFunction 0) ] |}.

(** [class Row { name: string; age: number | null }]. *)
Definition Row : Ctor HostTy :=
  {| class_name := "Row";
     instance_type := [ ("name", TString); ("age", TNullable TNumber) ] |}.

(** [class Loose { name: string; extra: any }]. *)
Definition Loose : Ctor HostTy :=
  {| class_name := "Loose";
     instance_type := [ ("name", TString); ("extra", TAny) ] |}.

(** [class Config {}]. *)
Definition Config : Ctor HostTy :=
  {| class_name := "Config"; instance_type := [] |}.


(** A scope with [db: Db], where [class Db { Users: DbSet }]. *)
Definition example_vars (x : string) : option HostTy :=
  if String.eqb x "db" then Some (TRef "Db") else None.

Definition example_members (c : string) : ObjectType HostTy :=
  if String.eqb c "Db" then [ ("Users", TRef "DbSet") ] else [].

(** [struct Point { x: double; y: double }]. *)
Definition Point : ClrTy :=
  CStruct "Point" [CNumeric Double; CNumeric Double].


(* ====================================================================== *)
(** * Further declarations and their callers *)
(* ====================================================================== *)

(** The host's built-in [ConstructorParameters<C>], which the comment on
    [OverloadedConstructorParameters] sets it against: a single
    [C extends new (...args: infer P) => any ? P : never], which "collapses
    overloads to the last signature". *)
Definition ConstructorParameters {ty : Type} (C : AttributeCtor ty)
  : list (Params ty) :=
  match infer_signatures 1 (signatures C) with
  | Some [P] => [P]
  | _ => []
  end.

(** Consecutive statements [b.add(d1); b.add(d2); ...] on one target. *)
Fixpoint add_all {ty : Type} (assignable : ty -> ty -> bool) {arg : Type}
    (type_of : arg -> ty) (b : AttributeTargetBuilder ty)
    (ds : list (AttributeDescriptor ty arg)) : Pass ty arg unit :=
  match ds with
  | [] => ret tt
  | d :: ds' =>
      bind (add_descriptor assignable type_of b d)
           (fun _ => add_all assignable type_of b ds')
  end.

(** Rewriting every numeric type argument of an expression to one numeric
    kind, as in reading [long] where the source wrote [int]. *)
Fixpoint renumber_type (k : NumericKind) (T : ClrTy) : ClrTy :=
  match T with
  | CNumeric _ => CNumeric k
  | CStruct name fields => CStruct name (map (renumber_type k) fields)
  | _ => T
  end.

Fixpoint renumber (k : NumericKind) (e : Expr) : Expr :=
  match e with
  | EVar x => EVar x
  | ENumber z => ENumber z
  | EString s => EString s
  | EMember e' m => EMember (renumber k e') m
  | EAssert e' T => EAssert (renumber k e') (renumber_type k T)
  | EStackalloc T size => EStackalloc (renumber_type k T) (renumber k size)
  | ESizeof T => ESizeof (renumber_type k T)
  | EDefaultof T => EDefaultof (renumber_type k T)
  | ENameof e' => ENameof (renumber k e')
  | ETrycast T e' => ETrycast (renumber_type k T) (renumber k e')
  | EAsinterface T e' => EAsinterface (renumber_type k T) (renumber k e')
  end.

(* ====================================================================== *)
(** * __build/scripts/generate.sh *)
(* ====================================================================== *)

(** The script runs under [set -e]: it tests four prerequisites, removes
    the generated runtime files of the project, builds tsbindgen and runs
    it.  A file system maps a path, the list of its segments from the
    root, to the kind of entry the path names, as the tests [-f] and [-d]
    see it; [..] is resolved on the path as written.  The commands the
    script runs are parameters: [rm] returns the file system it leaves,
    and each [dotnet] command its exit status with the file system it
    leaves. *)
Module Generate.

Inductive Kind : Type :=
| File
| Dir.

Definition Path : Type := list string.

Definition FileSystem : Type := Path -> option Kind.

(** [[ -f p ]] and [[ -d p ]]. *)
Definition is_file (fs : FileSystem) (p : Path) : bool :=
  match fs p with
  | Some File => true
  | _ => false
  end.

Definition is_dir (fs : FileSystem) (p : Path) : bool :=
  match fs p with
  | Some Dir => true
  | _ => false
  end.

Fixpoint path_eqb (p q : Path) : bool :=
  match p, q with
  | [], [] => true
  | a :: p', b :: q' => String.eqb a b && path_eqb p' q'
  | _, _ => false
  end.

(** [is_prefix d p]: [p] is [d] or lies below it. *)
Fixpoint is_prefix (d p : Path) : bool :=
  match d, p with
  | [], _ => true
  | a :: d', b :: p' => String.eqb a b && is_prefix d' p'
  | _ :: _, [] => false
  end.

(** The segments of a path as written, split at each slash. *)
Fixpoint split_slash (s : string) : list string :=
  match s with
  | EmptyString => [EmptyString]
  | String c s' =>
      match split_slash s' with
      | seg :: rest =>
          if Ascii.eqb c "/"%char then EmptyString :: seg :: rest
          else String c seg :: rest
      | [] => [String c EmptyString]
      end
  end.

(** Walking one segment from a directory: empty segments and [.] stay,
    [..] goes to the parent (the root is its own parent). *)
Definition walk (at_ : Path) (seg : string) : Path :=
  if String.eqb seg "" then at_
  else if String.eqb seg "." then at_
  else if String.eqb seg ".." then removelast at_
  else at_ ++ [seg].

Definition is_absolute (s : string) : bool :=
  match s with
  | String c _ => Ascii.eqb c "/"%char
  | EmptyString => false
  end.

(** The entry a path as written names, from the current directory. *)
Definition resolve (cwd : Path) (s : string) : Path :=
  fold_left walk (split_slash s) (if is_absolute s then [] else cwd).

(** One [rm] command: its option, its operands, the directory it runs in
    and the file system it finds.  What it removes depends on what the
    operands name, on permissions and on symbolic links; the script
    discards its output and ignores its status ([2>/dev/null || true]). *)
Definition Rm : Type :=
  string -> list string -> Path -> FileSystem -> FileSystem.

(** Step 1 of the script, run from the project directory. *)
Definition clean_generated (rm : Rm) (project : Path) (fs : FileSystem)
  : FileSystem :=
  let fs := rm "-rf" ["Tsonic.Runtime/"; "runtime/"] project fs in
  let fs :=
    rm "-f" ["Tsonic.Runtime.d.ts"; "Tsonic.Runtime.js"; "runtime.d.ts";
             "runtime.js"] project fs in
  rm "-f" ["families.json"] project fs.

(** An [rm] is confined when a call leaves every entry as it was that is
    neither named by an operand nor below an entry an operand names. *)
Definition confined (rm : Rm) : Prop :=
  forall flags operands cwd fs p,
    (forall o, In o operands -> is_prefix (resolve cwd o) p = false) ->
    rm flags operands cwd fs p = fs p.

(** The names step 1 removes, as entries of the project directory. *)
Definition generated_names : list string :=
  [ "Tsonic.Runtime"; "runtime"; "Tsonic.Runtime.d.ts"; "Tsonic.Runtime.js";
    "runtime.d.ts"; "runtime.js"; "families.json" ].

(** How the script is started: the environment, the directory it is
    started from, and [PROJECT_DIR] as [pwd] printed it. *)
Record Invocation : Type := {
  environment : string -> option string;
  working_dir : Path;
  PROJECT_DIR : string
}.

(** [${name:-default}]: the default when the variable is unset or empty. *)
Definition or_default (env : string -> option string) (name default : string)
  : string :=
  match env name with
  | None => default
  | Some v => if String.eqb v "" then default else v
  end.

(** [$name]: empty when the variable is unset. *)
Definition expand (env : string -> option string) (name : string) : string :=
  match env name with
  | None => ""
  | Some v => v
  end.

Definition TSBINDGEN_DIR (i : Invocation) : string :=
  String.append (PROJECT_DIR i) "/../tsbindgen".

Definition RUNTIME_DIR (i : Invocation) : string :=
  String.append (PROJECT_DIR i) "/../runtime".

Definition DOTNET_LIB (i : Invocation) : string :=
  String.append (PROJECT_DIR i) "/../dotnet".

Definition DOTNET_VERSION (i : Invocation) : string :=
  or_default (environment i) "DOTNET_VERSION" "10.0.0".

Definition DOTNET_HOME (i : Invocation) : string :=
  or_default (environment i) "DOTNET_HOME"
    (String.append (expand (environment i) "HOME") "/.dotnet").

Definition DOTNET_RUNTIME_PATH (i : Invocation) : string :=
  String.append (DOTNET_HOME i)
    (String.append "/shared/Microsoft.NETCore.App/" (DOTNET_VERSION i)).

Definition RUNTIME_DLL (i : Invocation) : string :=
  String.append (RUNTIME_DIR i)
    "/artifacts/bin/Tsonic.Runtime/Release/net10.0/Tsonic.Runtime.dll".

(** The arguments of the [tsbindgen generate] run of step 3. *)
Record GenerateArgs : Type := {
  assembly : string;             (* -a *)
  dotnet_dir : string;           (* -d *)
  output_dir : string;           (* -o *)
  lib : string;                  (* --lib *)
  naming : string;               (* --naming *)
  namespace_map : string         (* --namespace-map *)
}.

Record Outcome : Type := {
  status : nat;
  stdout : list string;
  files : FileSystem
}.

Definition rule : string :=
  "================================================================".

Definition banner (i : Invocation) : list string :=
  [ rule;
    "Generating Tsonic.Runtime TypeScript Declarations for @tsonic/core";
    rule;
    "";
    "Configuration:";
    String.append "  Runtime.dll:   " (RUNTIME_DLL i);
    String.append "  .NET Runtime:  " (DOTNET_RUNTIME_PATH i);
    String.append "  BCL Library:   "
      (String.append (DOTNET_LIB i) " (external reference)");
    String.append "  tsbindgen:     " (TSBINDGEN_DIR i);
    String.append "  Output:        " (PROJECT_DIR i);
    "  Naming:        JS (camelCase)";
    "" ].

Definition prerequisites_ok (i : Invocation) (fs : FileSystem) : bool :=
  is_file fs (resolve (working_dir i) (RUNTIME_DLL i)) &&
  is_dir fs (resolve (working_dir i) (DOTNET_RUNTIME_PATH i)) &&
  is_dir fs (resolve (working_dir i) (TSBINDGEN_DIR i)) &&
  is_dir fs (resolve (working_dir i) (DOTNET_LIB i)).

Section Script.

(** The [rm] of the system. *)
Variable rm : Rm.

(** [dotnet build src/tsbindgen/tsbindgen.csproj -c Release --verbosity quiet],
    run in the given directory. *)
Variable dotnet_build : Path -> FileSystem -> nat * FileSystem.

(** [dotnet run --project src/tsbindgen/tsbindgen.csproj --no-build -c Release -- generate ...],
    run in the given directory. *)
Variable tsbindgen_generate :
  Path -> GenerateArgs -> FileSystem -> nat * FileSystem.

Definition generate (i : Invocation) (fs : FileSystem) : Outcome :=
  let cwd := working_dir i in
  let out := banner i in
  if negb (is_file fs (resolve cwd (RUNTIME_DLL i))) then
    {| status := 1;
       stdout := out ++
         [ String.append "ERROR: Tsonic.Runtime.dll not found at "
             (RUNTIME_DLL i);
           "Build it first: cd ../runtime && dotnet build -c Release" ];
       files := fs |}
  else if negb (is_dir fs (resolve cwd (DOTNET_RUNTIME_PATH i))) then
    {| status := 1;
       stdout := out ++
         [ String.append "ERROR: .NET runtime not found at "
             (DOTNET_RUNTIME_PATH i);
           "Set DOTNET_HOME or DOTNET_VERSION environment variables" ];
       files := fs |}
  else if negb (is_dir fs (resolve cwd (TSBINDGEN_DIR i))) then
    {| status := 1;
       stdout := out ++
         [ String.append "ERROR: tsbindgen not found at " (TSBINDGEN_DIR i);
           "Clone it: git clone https://github.com/tsoniclang/tsbindgen ../tsbindgen" ];
       files := fs |}
  else if negb (is_dir fs (resolve cwd (DOTNET_LIB i))) then
    {| status := 1;
       stdout := out ++
         [ String.append "ERROR: @tsonic/dotnet not found at " (DOTNET_LIB i);
           "Clone it: git clone https://github.com/tsoniclang/dotnet ../dotnet" ];
       files := fs |}
  else
    let out := out ++ ["[1/3] Cleaning generated runtime files..."] in
    let project := resolve cwd (PROJECT_DIR i) in
    if negb (is_dir fs project) then            (* cd "$PROJECT_DIR" *)
      {| status := 1; stdout := out; files := fs |}
    else
      let fs1 := clean_generated rm project fs in
      let out := out ++ ["  Done"; "[2/3] Building tsbindgen..."] in
      let tsbindgen := resolve project (TSBINDGEN_DIR i) in
      if negb (is_dir fs1 tsbindgen) then       (* cd "$TSBINDGEN_DIR" *)
        {| status := 1; stdout := out; files := fs1 |}
      else
        let (built, fs2) := dotnet_build tsbindgen fs1 in
        if negb (Nat.eqb built 0) then
          {| status := built; stdout := out; files := fs2 |}
        else
          let out :=
            out ++ ["  Done"; "[3/3] Generating TypeScript declarations..."] in
          let (generated, fs3) :=
            tsbindgen_generate tsbindgen
              {| assembly := RUNTIME_DLL i;
                 dotnet_dir := DOTNET_RUNTIME_PATH i;
                 output_dir := PROJECT_DIR i;
                 lib := DOTNET_LIB i;
                 naming := "js";
                 namespace_map := "Tsonic.Runtime=runtime" |} fs2 in
          if negb (Nat.eqb generated 0) then
            {| status := generated; stdout := out; files := fs3 |}
          else
            {| status := 0;
               stdout := out ++ [""; rule; "Generation Complete"; rule];
               files := fs3 |}.

End Script.

(** A file system given by its entries. *)
Definition files_of (entries : list (Path * Kind)) : FileSystem :=
  fun p =>
    match find (fun e => path_eqb (fst e) p) entries with
    | Some e => Some (snd e)
    | None => None
    end.

(** A checkout of the project beside its sibling repositories, with
    generated runtime files from an earlier run. *)
Definition example_files : FileSystem :=
  files_of
    [ (["home"], Dir);
      (["home"; "dev"], Dir);
      (["home"; "dev"; "core"], Dir);
      (["home"; "dev"; "core"; "types.d.ts"], File);
      (["home"; "dev"; "core"; "lang.d.ts"], File);
      (["home"; "dev"; "core"; "runtime"], Dir);
      (["home"; "dev"; "core"; "runtime"; "index.d.ts"], File);
      (["home"; "dev"; "core"; "runtime.d.ts"], File);
      (["home"; "dev"; "core"; "families.json"], File);
      (["home"; "dev"; "tsbindgen"], Dir);
      (["home"; "dev"; "dotnet"], Dir);
      (["home"; "dev"; "runtime"], Dir);
      (["home"; "dev"; "runtime"; "artifacts"; "bin"; "Tsonic.Runtime";
        "Release"; "net10.0"; "Tsonic.Runtime.dll"], File);
      (["home"; "dev"; ".dotnet"; "shared"; "Microsoft.NETCore.App";
        "10.0.0"], Dir) ].

Definition example_invocation : Invocation :=
  {| environment :=
       fun name => if String.eqb name "HOME" then Some "/home/dev" else None;
     working_dir := ["home"; "dev"; "core"];
     PROJECT_DIR := "/home/dev/core" |}.

(** The same checkout before the runtime repository was built. *)
Definition example_files_unbuilt : FileSystem :=
  fun p =>
    if is_prefix ["home"; "dev"; "runtime"; "artifacts"] p then None
    else example_files p.

Definition ends_with_slash (s : string) : bool :=
  match rev (split_slash s) with
  | last_segment :: _ :: _ => String.eqb last_segment ""
  | _ => false
  end.

(** An [rm] on a file system of plain files and directories in which every
    removal is permitted: with [-rf] an operand that names a directory is
    removed with everything below it; an operand that names a regular
    file, and is not written with a trailing slash, is removed. *)
Definition plain_rm : Rm :=
  fun flags operands cwd fs =>
    fold_left
      (fun (fs : FileSystem) (name : string) =>
         let target := resolve cwd name in
         if String.eqb flags "-rf" && is_dir fs target
         then fun p => if is_prefix target p then None else fs p
         else if is_file fs target && negb (ends_with_slash name)
         then fun p => if path_eqb target p then None else fs p
         else fs)
      operands fs.

(** A [dotnet build] that fails, and commands that succeed without
    touching the files. *)
Definition failing_build (cwd : Path) (fs : FileSystem) : nat * FileSystem :=
  (1, fs).

Definition quiet_build (cwd : Path) (fs : FileSystem) : nat * FileSystem :=
  (0, fs).

Definition quiet_generate (cwd : Path) (a : GenerateArgs) (fs : FileSystem)
  : nat * FileSystem :=
  (0, fs).

(** The project checked out at the root of the file system, beside a
    built runtime repository. *)
Definition root_invocation : Invocation :=
  {| environment := fun _ => None;
     working_dir := [];
     PROJECT_DIR := "/" |}.

Definition root_files : FileSystem :=
  files_of
    [ (["runtime"], Dir);
      (["runtime"; "artifacts"; "bin"; "Tsonic.Runtime"; "Release"; "net10.0";
        "Tsonic.Runtime.dll"], File) ].

End Generate.


(* ====================================================================== *)
(** * Facts: constructor overloads *)
(* ====================================================================== *)

Section OverloadFacts.

Variable ty : Type.
Variable assignable : ty -> ty -> bool.

Implicit Types (C : AttributeCtor ty) (A P : list ty) (U : list (list ty)).

(** The boolean check of one tuple is the specification's condition. *)
Lemma args_assignable_spec A P :
  args_assignable assignable A P = true <-> matches_signature assignable A P.
Proof.
  unfold matches_signature. revert P.
  induction A as [|a A IH]; intros [|p P]; simpl.
  - split; [intros _; split; [reflexivity|] | reflexivity].
    intros [|k] x y Hx; discriminate Hx.
  - split; [discriminate | intros [Hlen _]; discriminate Hlen].
  - split; [discriminate | intros [Hlen _]; discriminate Hlen].
  - rewrite andb_true_iff, IH. split.
    + intros [Hap [Hlen Hpos]]. split; [now rewrite Hlen|].
      intros [|k] x y Hx Hy; simpl in *.
      * now inversion Hx; inversion Hy; subst.
      * eauto.
    + intros [Hlen Hpos]. split; [apply (Hpos 0); reflexivity|].
      split; [now inversion Hlen|].
      intros k x y Hx Hy. apply (Hpos (S k)); assumption.
Qed.

Lemma rest_accepts_spec U A :
  rest_accepts assignable U A = true <->
  exists P, In P U /\ matches_signature assignable A P.
Proof.
  unfold rest_accepts. rewrite existsb_exists.
  split; intros [P [HIn HP]]; exists P; split; auto;
    now apply args_assignable_spec.
Qed.

Lemma length_five {X : Type} (l : list X) :
  length l = 5 -> exists a b c d e, l = [a; b; c; d; e].
Proof.
  destruct l as [|a [|b [|c [|d [|e [|f l]]]]]]; simpl; try discriminate.
  intros _. now exists a, b, c, d, e.
Qed.

(** Up to five signatures: the chain returns all of them, in order. *)
Lemma overloads_upto_five C :
  length (signatures C) <= 5 ->
  OverloadedConstructorParameters C = signatures C.
Proof.
  destruct C as [name sigs]. simpl.
  destruct sigs as [|s1 [|s2 [|s3 [|s4 [|s5 [|s6 sigs]]]]]];
    simpl; intros Hlen; try reflexivity.
  exfalso. lia.
Qed.

(** Five signatures or more: the first branch answers, with the last five. *)
Lemma overloads_from_five C :
  5 <= length (signatures C) ->
  OverloadedConstructorParameters C =
  skipn (length (signatures C) - 5) (signatures C).
Proof.
  intros Hlen.
  unfold OverloadedConstructorParameters, overload_chain, infer_signatures.
  destruct (Nat.leb_spec 5 (length (signatures C))) as [_|Hlt]; [|lia].
  destruct (length_five (skipn (length (signatures C) - 5) (signatures C)))
    as (a & b & c & d & e & Heq).
  - rewrite length_skipn. lia.
  - rewrite Heq. reflexivity.
Qed.

(** Whatever the number of signatures, every alternative of the extracted
    union is a declared signature. *)
Lemma overloads_declared C :
  incl (OverloadedConstructorParameters C) (signatures C).
Proof.
  destruct (Nat.le_gt_cases (length (signatures C)) 5) as [Hle|Hgt].
  - rewrite overloads_upto_five by assumption. apply incl_refl.
  - rewrite overloads_from_five by lia.
    intros P HP. rewrite <- (firstn_skipn (length (signatures C) - 5)).
    apply in_or_app. now right.
Qed.

Lemma overloads_nonempty C :
  1 <= length (signatures C) -> OverloadedConstructorParameters C <> [].
Proof.
  intros Hlen.
  destruct (Nat.le_gt_cases (length (signatures C)) 5) as [Hle|Hgt].
  - rewrite overloads_upto_five by assumption.
    destruct (signatures C); simpl in *; [lia | discriminate].
  - rewrite overloads_from_five by lia. intros Heq.
    apply (f_equal (@length _)) in Heq. rewrite length_skipn in Heq.
    simpl in Heq. lia.
Qed.

(** Acceptance implies a matching declared signature, for any number of
    signatures: there is no fallback that accepts without one. *)
Lemma accepted_has_match C A :
  overload_args_ok assignable C A = true ->
  some_signature_matches assignable C A.
Proof.
  unfold overload_args_ok. rewrite rest_accepts_spec.
  intros [P [HIn HP]]. exists P. split; [|assumption].
  now apply overloads_declared.
Qed.

Lemma accepts_upto_five C A :
  length (signatures C) <= 5 ->
  (overload_args_ok assignable C A = true <->
   some_signature_matches assignable C A).
Proof.
  intros Hlen. unfold overload_args_ok, some_signature_matches.
  rewrite rest_accepts_spec, overloads_upto_five by assumption.
  reflexivity.
Qed.

(** The two readings of the pattern test extract unions that accept the
    same argument lists. *)
Lemma padded_accepts_same C A :
  rest_accepts assignable (OverloadedConstructorParameters_padded C) A =
  rest_accepts assignable (OverloadedConstructorParameters C) A.
Proof.
  destruct (Nat.le_gt_cases (length (signatures C)) 5) as [Hle|Hgt].
  - rewrite overloads_upto_five by assumption.
    destruct C as [name sigs]. simpl in *.
    destruct sigs as [|s1 [|s2 [|s3 [|s4 [|s5 [|s6 sigs]]]]]];
      simpl in *; try lia; try reflexivity;
      destruct (args_assignable assignable A s1); reflexivity.
  - unfold OverloadedConstructorParameters_padded,
      OverloadedConstructorParameters, overload_chain.
    assert (Hsame : infer_signatures_padded 5 (signatures C) =
                    infer_signatures 5 (signatures C)).
    { unfold infer_signatures_padded, infer_signatures.
      destruct (signatures C) as [|s sigs] eqn:E; [simpl in Hgt; lia|].
      destruct (Nat.leb_spec 5 (length (s :: sigs))) as [_|Hlt]; [|lia].
      replace (5 - length (s :: sigs)) with 0 by lia. reflexivity. }
    rewrite Hsame.
    unfold infer_signatures.
    destruct (Nat.leb_spec 5 (length (signatures C))) as [_|Hlt]; [|lia].
    destruct (length_five (skipn (length (signatures C) - 5) (signatures C)))
      as (a & b & c & d & e & Heq).
    + rewrite length_skipn. lia.
    + rewrite Heq. reflexivity.
Qed.

End OverloadFacts.

Section OverloadClaims.

Variable ty : Type.
Variable assignable : ty -> ty -> bool.


(** C3.  With one to five declared construct signatures, the union
    extracted by [OverloadedConstructorParameters] is the list of all of
    them; and with at least one signature it is never empty. *)
Theorem extracted_union_is_all_signatures (C : AttributeCtor ty) :
  1 <= length (signatures C) ->
  OverloadedConstructorParameters C <> [] /\
  (length (signatures C) <= 5 ->
   OverloadedConstructorParameters C = signatures C /\
   length (OverloadedConstructorParameters C) = length (signatures C)).
Proof.
  intros Hone. split; [now apply overloads_nonempty|].
  intros Hfive. rewrite overloads_upto_five by assumption. now split.
Qed.

End OverloadClaims.


Example range_last_signature_accepted :
  overload_args_ok host_assignable RangeAttribute [TString] = true.
Proof. reflexivity. Qed.

Example range_two_arguments_rejected :
  overload_args_ok host_assignable RangeAttribute [TNumber; TNumber] = false.
Proof. reflexivity. Qed.


Lemma extracted_union_is_all_signatures_witness :
  OverloadedConstructorParameters ObsoleteAttribute = [ []; [TString] ].
Proof.
  apply (extracted_union_is_all_signatures HostTy ObsoleteAttribute);
    simpl; lia.
Defined.

(* ====================================================================== *)
(** * Facts: member selection *)
(* ====================================================================== *)

Section MemberFacts.

Variable ty : Type.
Variable callable : ty -> Extends.
Variable assignable : ty -> ty -> bool.
Variable constituents : ty -> list ty.

Implicit Types (T : ObjectType ty) (K : list string) (s : Selector ty).

Lemma member_type_keyof T k :
  In k (keyof T) <-> exists t, member_type T k = Some t.
Proof.
  unfold keyof. induction T as [|[name t] T IH]; simpl.
  - split; [intros [] | intros [t Ht]; discriminate Ht].
  - destruct (String.eqb_spec name k) as [->|Hne].
    + split; [intros _; now exists t | now left].
    + rewrite <- IH. split; [intros [Heq|HIn]; [contradiction | assumption]
                            | now right].
Qed.

Lemma MethodKeys_spec T k :
  In k (MethodKeys callable T) <->
  exists t, member_type T k = Some t /\ takes_true (callable t) = true.
Proof.
  unfold MethodKeys, member_callable. rewrite filter_In, member_type_keyof.
  split.
  - intros [[t Ht] Hc]. rewrite Ht in Hc. now exists t.
  - intros [t [Ht Hc]]. rewrite Ht. split; [now exists t | assumption].
Qed.

Lemma PropertyKeys_spec T k :
  In k (PropertyKeys callable T) <->
  exists t, member_type T k = Some t /\ takes_false (callable t) = true.
Proof.
  unfold PropertyKeys, member_not_callable.
  rewrite filter_In, member_type_keyof. split.
  - intros [[t Ht] Hc]. rewrite Ht in Hc. now exists t.
  - intros [t [Ht Hc]]. rewrite Ht. split; [now exists t | assumption].
Qed.

(** Every key of [T] is a method key or a property key, and it is both
    exactly when its member is typed so that the conditional type yields
    both branches. *)
Lemma keys_cover T k :
  (In k (keyof T) <->
   In k (MethodKeys callable T) \/ In k (PropertyKeys callable T)) /\
  (In k (MethodKeys callable T) /\ In k (PropertyKeys callable T) <->
   exists t, member_type T k = Some t /\ callable t = ExtendsBoth).
Proof.
  rewrite member_type_keyof, MethodKeys_spec, PropertyKeys_spec. split.
  - split.
    + intros [t Ht]. destruct (callable t) eqn:Hc.
      * left. exists t. now rewrite Hc.
      * right. exists t. now rewrite Hc.
      * left. exists t. now rewrite Hc.
    + intros [[t [Ht _]]|[t [Ht _]]]; now exists t.
  - split.
    + intros [[t [Ht Hc]] [t' [Ht' Hc']]].
      assert (t' = t) by congruence. subst. exists t. split; [assumption|].
      destruct (callable t); simpl in *; congruence.
    + intros [t [Ht Hc]]. split; exists t; rewrite Hc; now split.
Qed.

Lemma indexed_access_spec T K t :
  In t (indexed_access T K) <->
  exists k, In k K /\ member_type T k = Some t.
Proof.
  unfold indexed_access. rewrite in_flat_map. split.
  - intros [k [HIn Ht]]. exists k. split; [assumption|].
    destruct (member_type T k) as [t'|]; simpl in Ht; [|contradiction].
    destruct Ht as [->|[]]. reflexivity.
  - intros [k [HIn Ht]]. exists k. split; [assumption|].
    rewrite Ht. now left.
Qed.

Lemma assignable_to_union_spec (r : ty) (U : list ty) :
  assignable_to_union assignable constituents r U = true <->
  forall c, In c (constituents r) ->
            exists t, In t U /\ assignable c t = true.
Proof.
  unfold assignable_to_union. rewrite forallb_forall.
  split; intros H c Hc; specialize (H c Hc);
    [now apply existsb_exists in H | now apply existsb_exists].
Qed.

(** What a type-checked selector call establishes: the type argument
    names keys of the constraint, and each constituent of the result of
    the selector is assignable to the type of a member whose key is in
    [K]. *)
Lemma selector_call_ok_spec T Bound K s :
  selector_call_ok assignable constituents T Bound K s = true <->
  (forall k, In k K -> In k Bound) /\
  exists r,
    selector_type T s = Some r /\
    forall c, In c (constituents r) ->
      exists k t, In k K /\ member_type T k = Some t /\
                  assignable c t = true.
Proof.
  unfold selector_call_ok. rewrite andb_true_iff, forallb_forall.
  assert (Hkey : forall k, key_in k Bound = true <-> In k Bound).
  { intros k. unfold key_in. rewrite existsb_exists. split.
    - intros [k' [HIn Heq]]. apply String.eqb_eq in Heq. now subst.
    - intros HIn. exists k. split; [assumption | apply String.eqb_refl]. }
  split.
  - intros [Hbound Hsel]. split; [intros k HK; now apply Hkey, Hbound|].
    destruct (selector_type T s) as [r|]; [|discriminate].
    exists r. split; [reflexivity|].
    intros c Hc.
    destruct (proj1 (assignable_to_union_spec r _) Hsel c Hc)
      as [t [HIn Hct]].
    apply indexed_access_spec in HIn. destruct HIn as [k [HK Ht]].
    now exists k, t.
  - intros [Hbound [r [Hs Hall]]]. split; [intros k HK; now apply Hkey, Hbound|].
    rewrite Hs. apply assignable_to_union_spec. intros c Hc.
    destruct (Hall c Hc) as (k & t & HK & Ht & Hct).
    exists t. split; [|assumption]. apply indexed_access_spec. now exists k.
Qed.

Lemma method_ok_spec T s :
  method_ok callable assignable constituents T s = true <->
  exists r,
    selector_type T s = Some r /\
    forall c, In c (constituents r) ->
      exists k t, member_type T k = Some t /\
                  takes_true (callable t) = true /\ assignable c t = true.
Proof.
  unfold method_ok, method_with. rewrite selector_call_ok_spec. split.
  - intros [_ [r [Hs Hall]]]. exists r. split; [assumption|].
    intros c Hc. destruct (Hall c Hc) as (k & t & HK & Ht & Hct).
    apply MethodKeys_spec in HK. destruct HK as [t' [Ht' Hcall]].
    assert (t' = t) by congruence. subst. now exists k, t.
  - intros [r [Hs Hall]]. split; [auto|]. exists r. split; [assumption|].
    intros c Hc. destruct (Hall c Hc) as (k & t & Ht & Hcall & Hct).
    exists k, t. repeat split; try assumption.
    apply MethodKeys_spec. now exists t.
Qed.

Lemma prop_ok_spec T s :
  prop_ok callable assignable constituents T s = true <->
  exists r,
    selector_type T s = Some r /\
    forall c, In c (constituents r) ->
      exists k t, member_type T k = Some t /\
                  takes_false (callable t) = true /\ assignable c t = true.
Proof.
  unfold prop_ok, prop_with. rewrite selector_call_ok_spec. split.
  - intros [_ [r [Hs Hall]]]. exists r. split; [assumption|].
    intros c Hc. destruct (Hall c Hc) as (k & t & HK & Ht & Hct).
    apply PropertyKeys_spec in HK. destruct HK as [t' [Ht' Hcall]].
    assert (t' = t) by congruence. subst. now exists k, t.
  - intros [r [Hs Hall]]. split; [auto|]. exists r. split; [assumption|].
    intros c Hc. destruct (Hall c Hc) as (k & t & Ht & Hcall & Hct).
    exists k, t. repeat split; try assumption.
    apply PropertyKeys_spec. now exists t.
Qed.


End MemberFacts.



(** [Loose] has a member typed [any]: its key is a method key and a
    property key, and [A.on(Loose).method(l => l.name)] type-checks though
    [name] is a [string]. *)
Example method_accepts_property_of_loose :
  In "extra" (MethodKeys host_callable (InstanceOf Loose)) /\
  In "extra" (PropertyKeys host_callable (InstanceOf Loose)) /\
  method_ok host_callable host_assignable host_constituents
    (InstanceOf Loose) (SelectMember "name") = true.
Proof. repeat split; simpl; auto. Qed.

(** A result typed [string | null] fits [Row[K]], the union of [string]
    and [number | null], though it fits neither member alone. *)
Example row_union_result_accepted :
  prop_ok host_callable host_assignable host_constituents
    (InstanceOf Row) (SelectOther (TNullable TString)) = true /\
  host_assignable (TNullable TString) TString = false /\
  host_assignable (TNullable TString) (TNullable TNumber) = false.
Proof. repeat split. Qed.

Example document_prop_explicit_key :
  In "payload" (PropertyKeys host_callable (InstanceOf Document)) /\
  prop_with host_callable host_assignable host_constituents
    (InstanceOf Document) ["payload"] (SelectMember "save") = true.
Proof. split; [simpl; auto | reflexivity]. Qed.

Example user_method_save :
  OnBuilder_method host_assignable host_callable host_constituents (on User)
    (SelectMember "save")
  = Some {| target_class := "User";
            target := MethodTarget (SelectMember "save") |}.
Proof. reflexivity. Qed.

Example user_method_name_rejected :
  OnBuilder_method host_assignable host_callable host_constituents (on User)
    (SelectMember "name") = None.
Proof. reflexivity. Qed.

Example user_prop_name :
  OnBuilder_prop host_assignable host_callable host_constituents (on User)
    (SelectMember "name")
  = Some {| target_class := "User";
            target := PropertyTarget (SelectMember "name") |}.
Proof. reflexivity. Qed.

Example user_prop_missing_member :
  OnBuilder_prop host_assignable host_callable host_constituents (on User)
    (SelectMember "email") = None.
Proof. reflexivity. Qed.

(* ====================================================================== *)
(** * Facts: descriptors and attachment *)
(* ====================================================================== *)

Section ApiFacts.

Variable ty : Type.
Variable assignable : ty -> ty -> bool.
Variable arg : Type.
Variable type_of : arg -> ty.

Implicit Types (C : AttributeCtor ty) (A : list arg)
  (b : AttributeTargetBuilder ty) (st : Attachments ty arg)
  (d : AttributeDescriptor ty arg).

Lemma rejected_without_match C A :
  ~ some_signature_matches assignable C (map type_of A) ->
  overload_args_ok assignable C (map type_of A) = false.
Proof.
  intros Hnone.
  destruct (overload_args_ok assignable C (map type_of A)) eqn:E;
    [|reflexivity].
  exfalso. apply Hnone. now apply accepted_has_match.
Qed.


(** C8.  For an argument list the overload check accepts, [attr] yields the
    descriptor pairing the constructor with the arguments; running it in a
    declaration pass leaves the attachments as they were; the descriptor
    can be added to two targets in turn; building it a second time yields
    an equal descriptor with an equal lowering, in whatever state; and
    adding the descriptor is adding the constructor with its arguments. *)
Theorem attr_packages_without_attaching C A :
  overload_args_ok assignable C (map type_of A) = true ->
  exists d,
    attr assignable type_of C A = Some d /\
    (kind d = "attribute" /\ ctor d = C /\ args d = A) /\
    (forall st, checked (attr assignable type_of C A) st = Some (d, st)) /\
    (forall b1 b2 st,
        bind (add_descriptor assignable type_of b1 d)
             (fun _ => add_descriptor assignable type_of b2 d) st
        = Some (tt, st ++ [(b1, d); (b2, d)])) /\
    (forall st st' d1 d2 st1 st2,
        checked (attr assignable type_of C A) st = Some (d1, st1) ->
        checked (attr assignable type_of C A) st' = Some (d2, st2) ->
        d1 = d2 /\ lower_descriptor d1 = lower_descriptor d2 /\
        st1 = st /\ st2 = st') /\
    (forall b st,
        add assignable type_of b C A st
        = add_descriptor assignable type_of b d st).
Proof.
  intros Hok.
  exists {| kind := "attribute"; ctor := C; args := A |}.
  assert (Hattr : attr assignable type_of C A
                  = Some {| kind := "attribute"; ctor := C; args := A |})
    by (unfold attr; now rewrite Hok).
  assert (Hd : descriptor_ok assignable type_of
                 {| kind := "attribute"; ctor := C; args := A |} = true)
    by (unfold descriptor_ok; simpl; now rewrite Hok).
  split; [assumption|]. split; [now repeat split|].
  split; [intros st; unfold checked; now rewrite Hattr|].
  split.
  - intros b1 b2 st. unfold bind, add_descriptor. rewrite Hd.
    unfold enqueue. now rewrite <- app_assoc.
  - split.
    + intros st st' d1 d2 st1 st2. unfold checked. rewrite Hattr.
      intros H1 H2. inversion H1; inversion H2; subst. now repeat split.
    + intros b st. unfold add, bind, checked, add_descriptor.
      now rewrite Hattr, Hd.
Qed.

(** Attachment order is preserved by lowering. *)
Lemma lowering_keeps_attachment_order b d1 d2 st :
  descriptor_ok assignable type_of d1 = true ->
  descriptor_ok assignable type_of d2 = true ->
  exists st',
    bind (add_descriptor assignable type_of b d1)
         (fun _ => add_descriptor assignable type_of b d2) st
    = Some (tt, st') /\
    lower_attachments st' =
    lower_attachments st ++
      [(b, lower_descriptor d1); (b, lower_descriptor d2)].
Proof.
  intros H1 H2. exists (st ++ [(b, d1); (b, d2)]). split.
  - unfold bind, add_descriptor, enqueue. rewrite H1, H2.
    now rewrite <- app_assoc.
  - unfold lower_attachments. now rewrite map_app.
Qed.

End ApiFacts.


(** [A.attr(ObsoleteAttribute, "msg")]. *)
Lemma attr_packages_without_attaching_witness :
  exists d,
    attr host_assignable literal_type ObsoleteAttribute [LString "msg"]
    = Some d /\
    lower_descriptor d =
    {| annotation_name := "System.ObsoleteAttribute";
       annotation_args := [LString "msg"] |}.
Proof.
  destruct (attr_packages_without_attaching HostTy host_assignable
              Literal literal_type ObsoleteAttribute [LString "msg"]
              eq_refl) as (d & Hattr & (Hk & Hc & Ha) & _).
  exists d. split; [assumption|].
  unfold lower_descriptor. now rewrite Hc, Ha.
Defined.

Example config_obsolete_with_message :
  add host_assignable literal_type (OnBuilder_type (on Config))
    ObsoleteAttribute [LString "msg"] []
  = Some (tt, [ (OnBuilder_type (on Config),
                 {| kind := "attribute"; ctor := ObsoleteAttribute;
                    args := [LString "msg"] |}) ]).
Proof. reflexivity. Qed.

Example user_save_transaction :
  match OnBuilder_method host_assignable host_callable host_constituents (on User)
          (SelectMember "save") with
  | Some b => add host_assignable literal_type b TransactionAttribute [] []
  | None => None
  end
  = Some (tt, [ ({| target_class := "User";
                    target := MethodTarget (SelectMember "save") |},
                 {| kind := "attribute"; ctor := TransactionAttribute;
                    args := [] |}) ]).
Proof. reflexivity. Qed.

(* ====================================================================== *)
(** * Facts: types.d.ts and lang.d.ts *)
(* ====================================================================== *)

(** C10.  Each of the sixteen numeric aliases of [types.d.ts] is the host
    type [number]; so any two of them are the same type, and a value of one
    is assignable where another is expected. *)
Theorem numeric_aliases_are_number :
  [ Types.sbyte; Types.short; Types.int; Types.long; Types.nint;
    Types.int128; Types.byte; Types.ushort; Types.uint; Types.ulong;
    Types.nuint; Types.uint128; Types.half; Types.float; Types.double;
    Types.decimal ] = repeat TNumber 16 /\
  map snd Types.numeric_aliases = repeat TNumber 16 /\
  (forall a b,
      In a Types.numeric_aliases -> In b Types.numeric_aliases ->
      snd a = snd b /\ host_assignable (snd a) (snd b) = true).
Proof.
  split; [reflexivity|]. split; [reflexivity|].
  assert (Hall : forall a, In a Types.numeric_aliases -> snd a = TNumber).
  { intros a HIn. apply (in_map snd) in HIn.
    change (map snd Types.numeric_aliases) with (repeat TNumber 16) in HIn.
    now apply repeat_spec in HIn. }
  intros a b Ha Hb. rewrite (Hall a Ha), (Hall b Hb). now split.
Qed.

(** The sixteen CLR numeric types are written as one host type. *)
Lemma numeric_kinds_share_host_type (k k' : NumericKind) :
  host_of (CNumeric k) = host_of (CNumeric k').
Proof. reflexivity. Qed.

(** C7.  [thisarg<T>] is [T]: a parameter list with a marked receiver is
    the parameter list without the mark, and accepts the same arguments. *)
Theorem thisarg_is_identity (T : HostTy) :
  Lang10.thisarg T = T /\
  (forall rest : list HostTy, Lang10.thisarg T :: rest = T :: rest) /\
  (forall (rest A : list HostTy),
      args_assignable host_assignable A (Lang10.thisarg T :: rest)
      = args_assignable host_assignable A (T :: rest)) /\
  (forall signature : list HostTy,
      map Lang10.thisarg signature = signature).
Proof.
  repeat split. intros signature. unfold Lang10.thisarg. apply map_id.
Qed.

(** The two declarations of [Span<T>] name their length member differently. *)
Lemma Span_member_names_differ :
  ~ (forall T : HostTy, Lang.Span T = Lang10.Span T).
Proof.
  intros H. specialize (H TNumber). discriminate H.
Qed.

(** C9 (amended).  The two declarations of [Span<T>] have the same numeric
    index signature returning [T] and one readonly member of type [int];
    that member is [length] in [src/lang.d.ts] and [Length] in
    [src/versions/10/lang.d.ts].  They are the same up to this renaming,
    they are not the same interface, and neither is assignable to the
    other. *)
Theorem Span_declarations_agree_up_to_member_name (T : HostTy) :
  rename_properties
    (fun n => if String.eqb n "length" then "Length" else n) (Lang.Span T)
  = Lang10.Span T /\
  index_signature (Lang.Span T) = Some (TNumber, T) /\
  index_signature (Lang10.Span T) = Some (TNumber, T) /\
  map property_type (properties (Lang.Span T)) = [Types.int] /\
  map property_type (properties (Lang10.Span T)) = [Types.int] /\
  map property_readonly (properties (Lang.Span T)) = [true] /\
  map property_readonly (properties (Lang10.Span T)) = [true] /\
  map property_name (properties (Lang.Span T)) = ["length"] /\
  map property_name (properties (Lang10.Span T)) = ["Length"] /\
  Lang.Span T <> Lang10.Span T /\
  interface_assignable (Lang.Span T) (Lang10.Span T) = false /\
  interface_assignable (Lang10.Span T) (Lang.Span T) = false.
Proof.
  repeat split. intros H. discriminate H.
Qed.

(** An interface is assignable to itself once the element type is. *)
Lemma Span_assignable_to_itself (T : HostTy) :
  host_assignable T T = true ->
  interface_assignable (Lang.Span T) (Lang.Span T) = true /\
  interface_assignable (Lang10.Span T) (Lang10.Span T) = true.
Proof.
  intros HT. unfold interface_assignable. simpl. rewrite HT. now split.
Qed.

(** Every host type is accepted where [unknown] is expected. *)
Lemma unknown_parameter_accepts (s : HostTy) :
  args_assignable host_assignable [s] [TUnknown] = true.
Proof. reflexivity. Qed.

(** C5.  [asinterface<T>(v)] has the static type [T] for any well-typed
    [v], and lowers to what [v] lowers to: the emitted expression is that
    of [v], with no cast added, where a type assertion adds a cast and
    [trycast] adds an [as]. *)
Theorem asinterface_is_erased
    (vars : string -> option HostTy) (members : string -> ObjectType HostTy)
    (T : ClrTy) (v : Expr) (s : HostTy) :
  static_type vars members v = Some s ->
  static_type vars members (EAsinterface T v) = Some (host_of T) /\
  lower (EAsinterface T v) = lower v /\
  emitted_casts (lower (EAsinterface T v)) = emitted_casts (lower v) /\
  (forall c, lower v = inr c ->
     lower (EAsinterface T v) = inr c /\
     lower (EAssert v T) = inr (CsCast T c) /\
     lower (ETrycast T v) = inr (CsAs c T) /\
     emitted_casts (lower (EAssert v T)) = S (emitted_casts (lower v)) /\
     emitted_casts (lower (ETrycast T v)) = S (emitted_casts (lower v))).
Proof.
  intros Hv. split; [|split; [|split]].
  - simpl. rewrite Hv. reflexivity.
  - reflexivity.
  - reflexivity.
  - intros c Hc. simpl. rewrite Hc. now repeat split.
Qed.

(** [asinterface<IQueryable>(db.Users)] emits [db.Users]. *)
Lemma asinterface_is_erased_witness :
  static_type example_vars example_members
    (EAsinterface (CInterface "IQueryable") (EMember (EVar "db") "Users"))
  = Some (TRef "IQueryable") /\
  lower (EAsinterface (CInterface "IQueryable") (EMember (EVar "db") "Users"))
  = inr (CsMember (CsVar "db") "Users").
Proof.
  destruct (asinterface_is_erased example_vars example_members
              (CInterface "IQueryable") (EMember (EVar "db") "Users")
              (TRef "DbSet") eq_refl) as (Hty & _ & _ & Hlow).
  split; [exact Hty | apply (Hlow _ eq_refl)].
Defined.

(** Induction on CLR types that reaches the fields of a struct. *)
Lemma ClrTy_fields_ind (P : ClrTy -> Prop) :
  (forall k, P (CNumeric k)) -> P CBoolean -> P CChar ->
  (forall name fields, Forall P fields -> P (CStruct name fields)) ->
  P CString -> (forall n, P (CClass n)) -> (forall n, P (CInterface n)) ->
  forall T, P T.
Proof.
  intros Hnum Hbool Hchar Hstruct Hstr Hclass Hiface.
  fix IH 1. intros [k| | |name fields| |n|n].
  - apply Hnum.
  - exact Hbool.
  - exact Hchar.
  - apply Hstruct. induction fields as [|f fs IHfs]; constructor;
      [apply IH | exact IHfs].
  - exact Hstr.
  - apply Hclass.
  - apply Hiface.
Qed.

Lemma defaultof_has_type (T : ClrTy) : value_has_type (defaultof T) T = true.
Proof.
  induction T as [k| | |name fields IH| |n|n] using ClrTy_fields_ind;
    try reflexivity.
  simpl. induction IH as [|f fs Hf _ IHfs]; simpl; [reflexivity|].
  now rewrite Hf, IHfs.
Qed.

Lemma defaultof_is_zero (T : ClrTy) : is_zero (defaultof T) = true.
Proof.
  induction T as [k| | |name fields IH| |n|n] using ClrTy_fields_ind;
    try reflexivity.
  simpl. induction IH as [|f fs Hf _ IHfs]; simpl; [reflexivity|].
  now rewrite Hf, IHfs.
Qed.

(** C6.  [defaultof<T>()] is typed [T] by both declaration files, lowers
    to [default(T)], and its value is a value of [T]: the zero value, and
    not null, when [T] is a value type; null when [T] is a reference
    type. *)
Theorem defaultof_zero_or_null (T : ClrTy) :
  call_type Lang.defaultof (host_of T) [] = Some (host_of T) /\
  call_type Lang10.defaultof (host_of T) [] = Some (host_of T) /\
  lower (EDefaultof T) = inr (CsDefault T) /\
  value_has_type (defaultof T) T = true /\
  (is_value_type T = true ->
   is_zero (defaultof T) = true /\ defaultof T <> VNull) /\
  (is_reference_type T = true -> defaultof T = VNull).
Proof.
  repeat split.
  - apply defaultof_has_type.
  - apply defaultof_is_zero.
  - destruct T; simpl in *; discriminate.
  - destruct T; simpl; intros H; try discriminate H; reflexivity.
Qed.

(** [defaultof<Point>()] is the struct of two zeros; [defaultof<Person>()]
    is null. *)
Lemma defaultof_zero_or_null_witness :
  (is_zero (defaultof Point) = true /\ defaultof Point <> VNull) /\
  defaultof (CClass "Person") = VNull.
Proof.
  split.
  - apply (proj1 (proj2 (proj2 (proj2 (proj2 (defaultof_zero_or_null Point)))))).
    reflexivity.
  - apply (proj2 (proj2 (proj2 (proj2 (proj2
             (defaultof_zero_or_null (CClass "Person"))))))).
    reflexivity.
Defined.

Example defaultof_point :
  defaultof Point = VStruct [VNumber 0; VNumber 0].
Proof. reflexivity. Qed.

Example sizeof_reference_type_unlowerable :
  lower (ESizeof (CClass "Person")) = inl (UnlowerableIntrinsic "sizeof") /\
  lower (ESizeof Point) = inr (CsSizeof Point).
Proof. split; reflexivity. Qed.

(* ====================================================================== *)
(** * Further facts: member selection *)
(* ====================================================================== *)

Section SelectorCalls.

Variable ty : Type.
Variable callable : ty -> Extends.
Variable assignable : ty -> ty -> bool.
Variable constituents : ty -> list ty.

Implicit Types (T : ObjectType ty) (K : list string) (s : Selector ty).


(** Writing the type argument [K] out never makes a call type-check that
    does not type-check without it, and a [K] naming a key outside the
    constraint is rejected. *)
Theorem explicit_keys_accept_no_more T K s :
  (method_with callable assignable constituents T K s = true ->
   method_ok callable assignable constituents T s = true) /\
  (prop_with callable assignable constituents T K s = true ->
   prop_ok callable assignable constituents T s = true) /\
  (forall k, In k K -> ~ In k (MethodKeys callable T) ->
             method_with callable assignable constituents T K s = false) /\
  (forall k, In k K -> ~ In k (PropertyKeys callable T) ->
             prop_with callable assignable constituents T K s = false).
Proof.
  assert (Hwiden : forall Bound,
             selector_call_ok assignable constituents T Bound K s = true ->
             selector_call_ok assignable constituents T Bound Bound s = true).
  { intros Bound H. apply selector_call_ok_spec in H.
    destruct H as [Hbound [r [Hs Hall]]].
    apply selector_call_ok_spec. split; [auto|].
    exists r. split; [assumption|]. intros c Hc.
    destruct (Hall c Hc) as (k & t & HK & Ht & Hct).
    exists k, t. repeat split; auto. }
  assert (Hout : forall Bound k, In k K -> ~ In k Bound ->
             selector_call_ok assignable constituents T Bound K s = false).
  { intros Bound k HK Hnot.
    destruct (selector_call_ok assignable constituents T Bound K s) eqn:E;
      [|reflexivity].
    exfalso. apply selector_call_ok_spec in E. destruct E as [Hbound _].
    auto. }
  repeat split.
  - apply Hwiden.
  - apply Hwiden.
  - intros k. apply Hout.
  - intros k. apply Hout.
Qed.

(** A declared member whose type is assignable to itself, constituent by
    constituent, can always be targeted: through [method] when the
    conditional type takes its true branch on it, through [prop] when it
    takes its false branch; the builder returned is bound to the class and
    the selector. *)
Theorem declared_members_are_selectable (C : Ctor ty) (k : string) (t : ty) :
  member_type (InstanceOf C) k = Some t ->
  (forall c, In c (constituents t) -> assignable c t = true) ->
  (takes_true (callable t) = true ->
   OnBuilder_method assignable callable constituents (on C) (SelectMember k)
   = Some {| target_class := class_name C;
             target := MethodTarget (SelectMember k) |}) /\
  (takes_false (callable t) = true ->
   OnBuilder_prop assignable callable constituents (on C) (SelectMember k)
   = Some {| target_class := class_name C;
             target := PropertyTarget (SelectMember k) |}).
Proof.
  intros Ht Hrefl. split; intros Hc.
  - unfold OnBuilder_method. simpl.
    replace (method_ok callable assignable constituents (InstanceOf C)
               (SelectMember k)) with true; [reflexivity|].
    symmetry. apply method_ok_spec. exists t. split; [assumption|].
    intros c Hin. exists k, t. auto.
  - unfold OnBuilder_prop. simpl.
    replace (prop_ok callable assignable constituents (InstanceOf C)
               (SelectMember k)) with true; [reflexivity|].
    symmetry. apply prop_ok_spec. exists t. split; [assumption|].
    intros c Hin. exists k, t. auto.
Qed.

End SelectorCalls.

(** [A.on(User).method(u => u.save)] and [A.on(User).prop(u => u.name)]. *)
Lemma declared_members_are_selectable_witness :
  OnBuilder_method host_assignable host_callable host_constituents (on User)
    (SelectMember "save")
  = Some {| target_class := "User";
            target := MethodTarget (SelectMember "save") |} /\
  OnBuilder_prop host_assignable host_callable host_constituents (on User)
    (SelectMember "name")
  = Some {| target_class := "User";
            target := PropertyTarget (SelectMember "name") |}.
Proof.
  split.
  - apply (proj1 (declared_members_are_selectable HostTy host_callable
                    host_assignable host_constituents User "save"
                    (TFunction 0) eq_refl
                    ltac:(intros c [<-|[]]; reflexivity))).
    reflexivity.
  - apply (proj2 (declared_members_are_selectable HostTy host_callable
                    host_assignable host_constituents User "name" TString
                    eq_refl ltac:(intros c [<-|[]]; reflexivity))).
    reflexivity.
Defined.

(* ====================================================================== *)
(** * Further facts: constructor overloads and attachment *)
(* ====================================================================== *)

Section OverloadExtras.

Variable ty : Type.
Variable assignable : ty -> ty -> bool.

Implicit Types (C : AttributeCtor ty) (A : list ty).


Lemma last_signature_extracted C init Sn :
  signatures C = init ++ [Sn] ->
  ConstructorParameters C = [Sn] /\
  In Sn (OverloadedConstructorParameters C).
Proof.
  intros Hsigs. split.
  - unfold ConstructorParameters, infer_signatures. rewrite Hsigs.
    assert (Hl : length (init ++ [Sn]) = S (length init))
      by (rewrite length_app; simpl; lia).
    rewrite Hl. change (Nat.leb 1 (S (length init))) with true.
    replace (S (length init) - 1) with (length init) by lia.
    rewrite skipn_app, skipn_all, Nat.sub_diag. reflexivity.
  - destruct (Nat.le_gt_cases (length (signatures C)) 5) as [Hle|Hgt].
    + rewrite overloads_upto_five by assumption. rewrite Hsigs.
      apply in_or_app. right. now left.
    + rewrite overloads_from_five by lia. rewrite Hsigs.
      rewrite skipn_app. apply in_or_app. right.
      assert (Hl : length (init ++ [Sn]) = S (length init))
        by (rewrite length_app; simpl; lia).
      rewrite Hl.
      replace (S (length init) - 5 - length init) with 0 by lia.
      now left.
Qed.

(** The built-in [ConstructorParameters] accepts an argument list exactly
    when the last declared signature admits it, and whatever it accepts
    the overloaded extraction accepts too, for any number of signatures. *)
Theorem overloads_at_least_builtin C A :
  (rest_accepts assignable (ConstructorParameters C) A = true <->
   exists init Sn,
     signatures C = init ++ [Sn] /\ matches_signature assignable A Sn) /\
  (rest_accepts assignable (ConstructorParameters C) A = true ->
   overload_args_ok assignable C A = true).
Proof.
  assert (Hlast : signatures C = [] \/
                  exists init Sn, signatures C = init ++ [Sn]).
  { destruct (signatures C) as [|s sigs] eqn:E; [now left|]. right.
    exists (removelast (s :: sigs)), (last (s :: sigs) s).
    apply app_removelast_last. discriminate. }
  assert (Hchar : rest_accepts assignable (ConstructorParameters C) A = true
                  <-> exists init Sn,
                      signatures C = init ++ [Sn] /\
                      matches_signature assignable A Sn).
  { rewrite rest_accepts_spec. destruct Hlast as [Hnil|(init & Sn & Hsigs)].
    - unfold ConstructorParameters. rewrite Hnil. simpl. split.
      + intros [P [[] _]].
      + intros (init & Sn & Habs & _). destruct init; discriminate Habs.
    - destruct (last_signature_extracted C init Sn Hsigs) as [Hcp _].
      rewrite Hcp. split.
      + intros [P [[<-|[]] HP]]. now exists init, Sn.
      + intros (init' & Sn' & Hsigs' & HP). exists Sn'.
        split; [|assumption]. rewrite Hsigs in Hsigs'.
        apply app_inj_tail in Hsigs'. destruct Hsigs' as [_ ->]. now left. }
  split; [exact Hchar|].
  intros H. apply Hchar in H. destruct H as (init & Sn & Hsigs & HP).
  unfold overload_args_ok. apply rest_accepts_spec. exists Sn.
  split; [|assumption].
  now apply (last_signature_extracted C init Sn).
Qed.

End OverloadExtras.


(** The built-in extraction rejects what only the first signature of
    [RangeAttribute] admits. *)
Example builtin_rejects_first_signature :
  rest_accepts host_assignable (ConstructorParameters RangeAttribute)
    [TNumber; TNumber; TString] = false.
Proof. reflexivity. Qed.

Section AttachmentExtras.

Variable ty : Type.
Variable assignable : ty -> ty -> bool.
Variable arg : Type.
Variable type_of : arg -> ty.

Implicit Types (b : AttributeTargetBuilder ty) (st : Attachments ty arg)
  (ds : list (AttributeDescriptor ty arg)).

(** Adding a list of descriptors to one target, one after the other:
    when each is well typed they are attached behind what was attached
    before, in the order of the calls, and lower in that order; when one
    is not, the pass as a whole is a static error. *)
Theorem add_all_keeps_order b ds st :
  (forallb (descriptor_ok assignable type_of) ds = true ->
   add_all assignable type_of b ds st
   = Some (tt, st ++ map (fun d => (b, d)) ds) /\
   lower_attachments (st ++ map (fun d => (b, d)) ds)
   = lower_attachments st ++ map (fun d => (b, lower_descriptor d)) ds) /\
  (forallb (descriptor_ok assignable type_of) ds = false ->
   add_all assignable type_of b ds st = None).
Proof.
  split.
  - intros Hall. split.
    + revert st Hall. induction ds as [|d ds IH]; intros st Hall; simpl.
      * unfold ret. now rewrite app_nil_r.
      * simpl in Hall. apply andb_true_iff in Hall.
        destruct Hall as [Hd Hds].
        unfold bind, add_descriptor. rewrite Hd. unfold enqueue.
        rewrite (IH (st ++ [(b, d)]) Hds), <- app_assoc. reflexivity.
    + unfold lower_attachments. rewrite map_app, map_map. reflexivity.
  - revert st. induction ds as [|d ds IH]; intros st Hsome; simpl in *.
    + discriminate.
    + unfold bind, add_descriptor.
      destruct (descriptor_ok assignable type_of d); simpl in *.
      * unfold enqueue. now apply IH.
      * reflexivity.
Qed.

End AttachmentExtras.

(** [A.on(Config).type] receives [SerializableAttribute]-style and
    [ObsoleteAttribute] descriptors in turn. *)
Lemma add_all_keeps_order_witness :
  add_all host_assignable literal_type (OnBuilder_type (on Config))
    [ {| kind := "attribute"; ctor := TransactionAttribute; args := [] |};
      {| kind := "attribute"; ctor := ObsoleteAttribute;
         args := [LString "msg"] |} ] []
  = Some (tt,
      [ (OnBuilder_type (on Config),
         {| kind := "attribute"; ctor := TransactionAttribute; args := [] |});
        (OnBuilder_type (on Config),
         {| kind := "attribute"; ctor := ObsoleteAttribute;
            args := [LString "msg"] |}) ]).
Proof.
  apply (proj1 (proj1 (add_all_keeps_order HostTy host_assignable Literal
                         literal_type (OnBuilder_type (on Config))
                         [ {| kind := "attribute";
                              ctor := TransactionAttribute; args := [] |};
                           {| kind := "attribute"; ctor := ObsoleteAttribute;
                              args := [LString "msg"] |} ] [])
                      eq_refl)).
Defined.

(* ====================================================================== *)
(** * Further facts: types.d.ts and lang.d.ts *)
(* ====================================================================== *)

Lemma host_assignable_refl (T : HostTy) : host_assignable T T = true.
Proof.
  induction T; simpl; rewrite ?String.eqb_refl;
    auto using String.eqb_refl, Nat.leb_refl.
Qed.

Lemma host_assignable_to_nullable (T : HostTy) :
  host_assignable T (TNullable T) = true.
Proof.
  induction T;
    try (simpl; rewrite ?String.eqb_refl, ?host_assignable_refl;
         reflexivity);
    try (simpl; apply Nat.leb_refl).
  exact IHT.
Qed.

Lemma accepts_unknown_accepts_all (b : HostTy) :
  host_assignable TUnknown b = true -> forall a, host_assignable a b = true.
Proof.
  induction b; simpl; try discriminate; intros H a; try reflexivity.
  destruct a; simpl; auto.
Qed.

(** Assignability between [Span] types of the host is assignability of
    the interfaces they refer to. *)
Lemma host_assignable_Span (d d' : SpanDecl) (a b : HostTy) :
  host_assignable (TSpan d a) (TSpan d' b)
  = interface_assignable (Span_of d a) (Span_of d' b).
Proof.
  destruct d, d'; unfold interface_assignable; simpl;
    rewrite ?andb_true_r; reflexivity.
Qed.

(** Of the five intrinsics declared by both [lang.d.ts] files, [sizeof],
    [defaultof], [nameof] and [trycast] are declared alike: a call
    type-checks against one file exactly when it does against the other,
    with the same result type.  [stackalloc] takes the same arguments in
    both, and returns the [Span<T>] of its own file: the two results are
    not assignable to one another. *)
Theorem shared_intrinsics_agree (T : HostTy) (A : list HostTy) :
  call_type Lang.sizeof T A = call_type Lang10.sizeof T A /\
  call_type Lang.defaultof T A = call_type Lang10.defaultof T A /\
  call_type Lang.nameof T A = call_type Lang10.nameof T A /\
  call_type Lang.trycast T A = call_type Lang10.trycast T A /\
  (call_type Lang.stackalloc T A = None <->
   call_type Lang10.stackalloc T A = None) /\
  (forall r r',
      call_type Lang.stackalloc T A = Some r ->
      call_type Lang10.stackalloc T A = Some r' ->
      r = TSpan LangSpan T /\ r' = TSpan Lang10Span T /\
      host_assignable r r' = false /\ host_assignable r' r = false).
Proof.
  do 4 (split; [reflexivity|]).
  unfold call_type. simpl.
  destruct (args_assignable host_assignable A _).
  - split; [split; discriminate|].
    intros r r' H H'. inversion H; inversion H'; subst. now repeat split.
  - split; [split; reflexivity|]. intros r r' H. discriminate H.
Qed.

(** [stackalloc<T>(size)] takes a size of any of the sixteen numeric
    aliases, the result of [sizeof] among them, and yields a [Span<T>]; a
    [char], a [bool] or a missing size is a static error. *)
Theorem stackalloc_size_is_any_number (T : HostTy) :
  (forall a, In a Types.numeric_aliases ->
     call_type Lang10.stackalloc T [snd a] = Some (TSpan Lang10Span T) /\
     call_type Lang.stackalloc T [snd a] = Some (TSpan LangSpan T)) /\
  (forall U, exists s,
     call_type Lang10.sizeof U [] = Some s /\
     call_type Lang10.stackalloc T [s] = Some (TSpan Lang10Span T)) /\
  call_type Lang10.stackalloc T [Types.char] = None /\
  call_type Lang10.stackalloc T [Types.bool] = None /\
  call_type Lang10.stackalloc T [] = None /\
  (forall s s', call_type Lang10.stackalloc T [s; s'] = None).
Proof.
  split; [|split].
  - intros a HIn. apply (in_map snd) in HIn.
    change (map snd Types.numeric_aliases) with (repeat TNumber 16) in HIn.
    apply repeat_spec in HIn. rewrite HIn. now split.
  - intros U. exists TNumber. now split.
  - repeat split. intros s s'. unfold call_type. simpl.
    now rewrite andb_false_r.
Qed.

(** The result of [trycast<T>] is [T | null]: [null] and every [T] fit
    it, and it does not fit [T] again unless [T] itself admits [null]. *)
Theorem trycast_result_needs_null_check (T s : HostTy) :
  call_type Lang10.trycast T [s] = Some (TNullable T) /\
  call_type Lang.trycast T [s] = Some (TNullable T) /\
  host_assignable TNull (TNullable T) = true /\
  host_assignable T (TNullable T) = true /\
  (host_assignable TNull T = false ->
   host_assignable (TNullable T) T = false).
Proof.
  repeat split.
  - apply host_assignable_to_nullable.
  - destruct T; simpl; intros H; try reflexivity; discriminate H.
Qed.

Lemma trycast_result_needs_null_check_witness :
  host_assignable (TNullable (TRef "Person")) (TRef "Person") = false.
Proof.
  apply (proj2 (proj2 (proj2 (proj2
           (trycast_result_needs_null_check (TRef "Person") TUnknown))))).
  reflexivity.
Defined.

(** The markers [out<T>], [ref<T>] and [inref<T>] are [T]: marked
    arguments are accepted exactly where the unmarked ones are.  [ptr<T>]
    is the same type whatever [T] is; every value is accepted as a
    [ptr<T>], and a [ptr<T>] is accepted only where every value is. *)
Theorem parameter_markers_are_transparent (T : HostTy) :
  (Types.out T = T /\ Types.ref T = T /\ Types.inref T = T) /\
  (forall A P : list HostTy,
      args_assignable host_assignable (map Types.out A) P
      = args_assignable host_assignable A P /\
      args_assignable host_assignable (map Types.ref A) P
      = args_assignable host_assignable A P /\
      args_assignable host_assignable (map Types.inref A) P
      = args_assignable host_assignable A P) /\
  (forall U, Types.ptr T = Types.ptr U) /\
  (forall a, host_assignable a (Types.ptr T) = true) /\
  (forall b, host_assignable (Types.ptr T) b = true ->
             forall a, host_assignable a b = true).
Proof.
  split; [now repeat split|]. split.
  - intros A P. unfold Types.out, Types.ref, Types.inref.
    rewrite map_id. now repeat split.
  - repeat split. intros b Hb. now apply accepts_unknown_accepts_all.
Qed.

Lemma renumber_type_host (k : NumericKind) (T : ClrTy) :
  host_of (renumber_type k T) = host_of T.
Proof. destruct T; reflexivity. Qed.

(** The host checker does not see numeric kinds: rewriting every numeric
    type argument of an expression to one kind leaves its static type as
    it was, while the emitted C# keeps the kinds apart. *)
Theorem numeric_kinds_invisible_to_host
    (vars : string -> option HostTy) (members : string -> ObjectType HostTy)
    (k : NumericKind) (e : Expr) :
  static_type vars members (renumber k e) = static_type vars members e /\
  (forall k', k <> k' ->
     lower (ESizeof (CNumeric k)) <> lower (ESizeof (CNumeric k')) /\
     lower (EDefaultof (CNumeric k)) <> lower (EDefaultof (CNumeric k'))).
Proof.
  split.
  - induction e; simpl; try reflexivity;
      rewrite ?renumber_type_host, ?IHe; reflexivity.
  - intros k' Hne. split; simpl; intros H; inversion H; contradiction.
Qed.

(* ====================================================================== *)
(** * Facts: __build/scripts/generate.sh *)
(* ====================================================================== *)

Module GenerateFacts.

Import Generate.

Lemma path_eqb_eq (p q : Path) : path_eqb p q = true <-> p = q.
Proof.
  revert q. induction p as [|a p IH]; intros [|b q]; simpl;
    try (split; [discriminate | intros H; discriminate H]);
    [split; reflexivity|].
  rewrite andb_true_iff, String.eqb_eq, IH. split.
  - intros [-> ->]. reflexivity.
  - intros H. inversion H. now split.
Qed.

Lemma is_prefix_spec (d p : Path) :
  is_prefix d p = true <-> exists rest, p = d ++ rest.
Proof.
  revert p. induction d as [|a d IH]; intros p; simpl.
  - split; [intros _; now exists p | reflexivity].
  - destruct p as [|b p].
    + split; [discriminate | intros [rest H]; discriminate H].
    + rewrite andb_true_iff, String.eqb_eq, IH. split.
      * intros [-> [rest ->]]. now exists rest.
      * intros [rest H]. inversion H. split; [reflexivity | now exists rest].
Qed.

Lemma clean_generated_outside
    (rm : Rm) (project : Path) (fs : FileSystem) (p : Path) :
  confined rm ->
  (forall name rest, p = project ++ name :: rest ->
                     ~ In name generated_names) ->
  clean_generated rm project fs p = fs p.
Proof.
  intros Hrm Hfree.
  assert (Hpre : forall n, In n generated_names ->
                   is_prefix (project ++ [n]) p = false).
  { intros n HIn. destruct (is_prefix (project ++ [n]) p) eqn:E;
      [|reflexivity].
    apply is_prefix_spec in E. destruct E as [rest E].
    rewrite <- app_assoc in E. exfalso. exact (Hfree n rest E HIn). }
  unfold clean_generated.
  rewrite Hrm.
  - rewrite Hrm.
    + rewrite Hrm; [reflexivity|].
      intros o [<-|[<-|[]]].
      * exact (Hpre "Tsonic.Runtime" ltac:(simpl; tauto)).
      * exact (Hpre "runtime" ltac:(simpl; tauto)).
    + intros o [<-|[<-|[<-|[<-|[]]]]].
      * exact (Hpre "Tsonic.Runtime.d.ts" ltac:(simpl; tauto)).
      * exact (Hpre "Tsonic.Runtime.js" ltac:(simpl; tauto)).
      * exact (Hpre "runtime.d.ts" ltac:(simpl; tauto)).
      * exact (Hpre "runtime.js" ltac:(simpl; tauto)).
  - intros o [<-|[]].
    exact (Hpre "families.json" ltac:(simpl; tauto)).
Qed.

(** The example [rm] is confined. *)
Lemma plain_rm_confined : confined plain_rm.
Proof.
  intros flags operands cwd fs p. unfold plain_rm.
  revert fs. induction operands as [|o operands IH]; intros fs Hout;
    simpl; [reflexivity|].
  rewrite IH by (intros o' Ho'; apply Hout; now right).
  assert (Ho : is_prefix (resolve cwd o) p = false)
    by (apply Hout; now left).
  destruct (String.eqb flags "-rf" && is_dir fs (resolve cwd o)).
  - now rewrite Ho.
  - destruct (is_file fs (resolve cwd o) && negb (ends_with_slash o));
      [|reflexivity].
    destruct (path_eqb (resolve cwd o) p) eqn:E; [|reflexivity].
    apply path_eqb_eq in E. rewrite <- E in Ho.
    assert (Hrefl : is_prefix (resolve cwd o) (resolve cwd o) = true)
      by (apply is_prefix_spec; exists []; now rewrite app_nil_r).
    congruence.
Qed.

(** When [rm] is confined, step 1 touches nothing but the seven generated
    names of the project directory and what lies below them: every other
    entry of the project, the hand-written declaration files among them,
    and everything outside the project is left as it was. *)
Theorem clean_keeps_everything_else
    (rm : Rm) (project : Path) (fs : FileSystem) (p : Path) :
  confined rm ->
  (forall name rest, p = project ++ name :: rest ->
                     ~ In name generated_names) ->
  clean_generated rm project fs p = fs p.
Proof.
  apply clean_generated_outside.
Qed.

(** [types.d.ts] of the example checkout survives step 1. *)
Lemma clean_keeps_everything_else_witness :
  clean_generated plain_rm ["home"; "dev"; "core"] example_files
    ["home"; "dev"; "core"; "types.d.ts"] = Some File.
Proof.
  rewrite (clean_keeps_everything_else plain_rm ["home"; "dev"; "core"]
             example_files ["home"; "dev"; "core"; "types.d.ts"]
             plain_rm_confined).
  - reflexivity.
  - intros name rest Heq HIn. inversion Heq; subst.
    simpl in HIn. intuition discriminate.
Defined.

Section ScriptFacts.

Variables rm rm' : Rm.
Variables build build' : Path -> FileSystem -> nat * FileSystem.
Variables gen gen' : Path -> GenerateArgs -> FileSystem -> nat * FileSystem.

(** When one of the four prerequisites is missing the script exits with
    status 1 after the banner and a two-line error, before anything is
    removed and without running [rm] or either [dotnet] command. *)
Theorem missing_prerequisite_stops_before_cleaning
    (i : Invocation) (fs : FileSystem) :
  prerequisites_ok i fs = false ->
  status (generate rm build gen i fs) = 1 /\
  files (generate rm build gen i fs) = fs /\
  (exists message hint,
      stdout (generate rm build gen i fs) = banner i ++ [message; hint]) /\
  generate rm build gen i fs = generate rm' build' gen' i fs.
Proof.
  unfold prerequisites_ok, generate.
  destruct (is_file fs (resolve (working_dir i) (RUNTIME_DLL i)));
    simpl; [|intros _; repeat split; eauto].
  destruct (is_dir fs (resolve (working_dir i) (DOTNET_RUNTIME_PATH i)));
    simpl; [|intros _; repeat split; eauto].
  destruct (is_dir fs (resolve (working_dir i) (TSBINDGEN_DIR i)));
    simpl; [|intros _; repeat split; eauto].
  destruct (is_dir fs (resolve (working_dir i) (DOTNET_LIB i)));
    simpl; [discriminate | intros _; repeat split; eauto].
Qed.

(** When the prerequisites are met and the build of tsbindgen fails, the
    script exits with the status of the build, the generation step is not
    run, and the files are those the build left of what step 1 had left:
    the cleaning has already taken place. *)
Theorem failed_build_skips_generation (i : Invocation) (fs : FileSystem) :
  let project := resolve (working_dir i) (PROJECT_DIR i) in
  let tsbindgen := resolve project (TSBINDGEN_DIR i) in
  let cleaned := clean_generated rm project fs in
  prerequisites_ok i fs = true ->
  is_dir fs project = true ->
  is_dir cleaned tsbindgen = true ->
  fst (build tsbindgen cleaned) <> 0 ->
  status (generate rm build gen i fs) = fst (build tsbindgen cleaned) /\
  files (generate rm build gen i fs) = snd (build tsbindgen cleaned) /\
  generate rm build gen i fs = generate rm build gen' i fs.
Proof.
  intros project tsbindgen cleaned Hpre Hproj Htsb Hfail.
  unfold prerequisites_ok in Hpre.
  apply andb_true_iff in Hpre. destruct Hpre as [Hpre H4].
  apply andb_true_iff in Hpre. destruct Hpre as [Hpre H3].
  apply andb_true_iff in Hpre. destruct Hpre as [H1 H2].
  unfold generate. rewrite H1, H2, H3, H4. simpl.
  fold project. rewrite Hproj. simpl.
  fold cleaned. fold tsbindgen. rewrite Htsb. simpl.
  destruct (build tsbindgen cleaned) as [code fs2]. simpl in *.
  destruct (Nat.eqb_spec code 0) as [->|Hne]; [contradiction|].
  simpl. now repeat split.
Qed.

(** The script exits with status 0 exactly when the prerequisites are
    met, both directories can be entered, and the build and the generation
    both succeed; the files are then those the generation left and the
    output ends with the completion banner. *)
Theorem generate_succeeds_iff (i : Invocation) (fs : FileSystem) :
  let project := resolve (working_dir i) (PROJECT_DIR i) in
  let tsbindgen := resolve project (TSBINDGEN_DIR i) in
  let cleaned := clean_generated rm project fs in
  let built := build tsbindgen cleaned in
  let generated :=
    gen tsbindgen
      {| assembly := RUNTIME_DLL i;
         dotnet_dir := DOTNET_RUNTIME_PATH i;
         output_dir := PROJECT_DIR i;
         lib := DOTNET_LIB i;
         naming := "js";
         namespace_map := "Tsonic.Runtime=runtime" |} (snd built) in
  (status (generate rm build gen i fs) = 0 <->
   prerequisites_ok i fs = true /\ is_dir fs project = true /\
   is_dir cleaned tsbindgen = true /\ fst built = 0 /\ fst generated = 0) /\
  (status (generate rm build gen i fs) = 0 ->
   files (generate rm build gen i fs) = snd generated /\
   exists lines,
     stdout (generate rm build gen i fs)
     = lines ++ [""; rule; "Generation Complete"; rule]).
Proof.
  intros project tsbindgen cleaned built generated.
  unfold generated, built, prerequisites_ok, generate.
  destruct (is_file fs (resolve (working_dir i) (RUNTIME_DLL i)));
    simpl; [|split; [split; [discriminate|] | discriminate];
             intros [H _]; discriminate H].
  destruct (is_dir fs (resolve (working_dir i) (DOTNET_RUNTIME_PATH i)));
    simpl; [|split; [split; [discriminate|] | discriminate];
             intros [H _]; discriminate H].
  destruct (is_dir fs (resolve (working_dir i) (TSBINDGEN_DIR i)));
    simpl; [|split; [split; [discriminate|] | discriminate];
             intros [H _]; discriminate H].
  destruct (is_dir fs (resolve (working_dir i) (DOTNET_LIB i)));
    simpl; [|split; [split; [discriminate|] | discriminate];
             intros [H _]; discriminate H].
  fold project.
  destruct (is_dir fs project);
    simpl; [|split; [split; [discriminate|] | discriminate];
             intros (_ & H & _); discriminate H].
  fold cleaned. fold tsbindgen.
  destruct (is_dir cleaned tsbindgen);
    simpl; [|split; [split; [discriminate|] | discriminate];
             intros (_ & _ & H & _); discriminate H].
  destruct (build tsbindgen cleaned) as [code fs2]. simpl.
  destruct (Nat.eqb_spec code 0) as [->|Hne]; simpl.
  - match goal with
    | |- context [gen tsbindgen ?a fs2] =>
        destruct (gen tsbindgen a fs2) as [code3 fs3]
    end. simpl.
    destruct (Nat.eqb_spec code3 0) as [->|Hne3]; simpl.
    + split; [split; [now repeat split | reflexivity]|].
      intros _. split; [reflexivity|].
      exists (banner i ++
              [ "[1/3] Cleaning generated runtime files..."; "  Done";
                "[2/3] Building tsbindgen..."; "  Done";
                "[3/3] Generating TypeScript declarations..." ]).
      reflexivity.
    + split; [split; [contradiction|] | contradiction].
      intros (_ & _ & _ & _ & H). contradiction.
  - split; [split; [contradiction|] | contradiction].
    intros (_ & _ & _ & H & _). contradiction.
Qed.

End ScriptFacts.

(** Before the runtime repository is built the script stops at the first
    test, with every file of the example checkout in place. *)
Lemma missing_prerequisite_stops_before_cleaning_witness :
  status (generate plain_rm quiet_build quiet_generate example_invocation
            example_files_unbuilt) = 1 /\
  files (generate plain_rm quiet_build quiet_generate example_invocation
           example_files_unbuilt)
    ["home"; "dev"; "core"; "runtime"; "index.d.ts"] = Some File.
Proof.
  destruct (missing_prerequisite_stops_before_cleaning
              plain_rm plain_rm quiet_build quiet_build
              quiet_generate quiet_generate
              example_invocation example_files_unbuilt eq_refl)
    as (Hstatus & Hfiles & _).
  split; [exact Hstatus|]. rewrite Hfiles. reflexivity.
Defined.

Lemma failed_build_skips_generation_witness :
  status (generate plain_rm failing_build quiet_generate example_invocation
            example_files) = 1 /\
  files (generate plain_rm failing_build quiet_generate example_invocation
           example_files)
    ["home"; "dev"; "core"; "runtime"; "index.d.ts"] = None.
Proof.
  destruct (failed_build_skips_generation plain_rm failing_build
              quiet_generate quiet_generate example_invocation example_files
              eq_refl eq_refl eq_refl ltac:(simpl; discriminate))
    as (Hstatus & Hfiles & _).
  split; [exact Hstatus|]. rewrite Hfiles. reflexivity.
Defined.

Lemma generate_succeeds_iff_witness :
  status (generate plain_rm quiet_build quiet_generate example_invocation
            example_files) = 0.
Proof.
  apply (proj1 (generate_succeeds_iff plain_rm quiet_build quiet_generate
                  example_invocation example_files)).
  repeat split.
Defined.

Lemma split_slash_nonempty (s : string) : split_slash s <> [].
Proof.
  destruct s as [|c s]; simpl; [discriminate|].
  destruct (split_slash s); [discriminate|].
  destruct (Ascii.eqb c "/"); discriminate.
Qed.

Lemma split_slash_app (a b : string) :
  split_slash (String.append a (String "/" b))
  = split_slash a ++ split_slash b.
Proof.
  induction a as [|c a IH]; simpl.
  - destruct (split_slash b) eqn:E; [|reflexivity].
    now apply split_slash_nonempty in E.
  - rewrite IH. destruct (split_slash a) as [|seg rest] eqn:E.
    + now apply split_slash_nonempty in E.
    + simpl. destruct (Ascii.eqb c "/"); reflexivity.
Qed.

Lemma is_absolute_app (a b : string) :
  is_absolute a = true -> is_absolute (String.append a b) = true.
Proof. destruct a; simpl; [discriminate | auto]. Qed.

(** A path written as an absolute path followed by [/rest] names what
    [rest] names from there. *)
Lemma resolve_app (cwd : Path) (a rest : string) :
  is_absolute a = true ->
  resolve cwd (String.append a (String "/" rest))
  = fold_left walk (split_slash rest) (resolve cwd a).
Proof.
  intros Habs. unfold resolve.
  rewrite (is_absolute_app a _ Habs), Habs, split_slash_app.
  apply fold_left_app.
Qed.

Lemma beside_not_generated (project : Path) (seg : string) (more : Path) :
  (project <> [] \/ ~ In seg generated_names) ->
  (forall name, more = name :: tl more -> ~ In name generated_names) ->
  forall name rest,
    removelast project ++ seg :: more = project ++ name :: rest ->
    ~ In name generated_names.
Proof.
  intros Hroot Hmore name rest Heq.
  destruct project as [|a project'] eqn:Eproj.
  - simpl in Heq. inversion Heq; subst.
    destruct Hroot as [Habs|Hseg]; [now contradiction Habs | exact Hseg].
  - rewrite <- Eproj in *.
    assert (Hne : project <> []) by (rewrite Eproj; discriminate).
    rewrite (app_removelast_last a Hne) in Heq at 2.
    rewrite <- app_assoc in Heq. apply app_inv_head in Heq.
    simpl in Heq. inversion Heq; subst more.
    apply Hmore. reflexivity.
Qed.



(** With the project at the root, [../runtime] is [runtime/] of the
    project, and step 1 removes the runtime assembly. *)
Example root_project_loses_runtime_assembly :
  is_file root_files (resolve [] (RUNTIME_DLL root_invocation)) = true /\
  is_file (clean_generated plain_rm
             (resolve [] (PROJECT_DIR root_invocation)) root_files)
    (resolve [] (RUNTIME_DLL root_invocation)) = false.
Proof. split; reflexivity. Qed.

End GenerateFacts.
